(** * Chatbot service: rule matcher, response formatter, checkpoint store
      and history reconstruction

    A shallow embedding of [src/services/chat_service.py],
    [src/services/s3_memory_saver.py] and the history route of [main.py],
    with the properties of the service stated and proved over it.

    Conventions of the embedding.
    - A Python [str] is a Rocq [string]; each character stands for the code
      point of the same number, so the strings of the model are the Python
      strings whose code points are below 256.  [isspace] and [lower] are
      Python's on that range.
    - A Python value that can sit in a checkpoint is a [value]: the JSON
      data types plus LangChain message objects.  Dictionaries keep their
      insertion order (association lists, looked up from the front).
    - Exceptions are results: [Raise e] for a raised exception, [Ok v] for
      a normal return.
    - [datetime.now()] reads a clock that is part of the world; a datetime
      is represented by its ISO-8601 text, so [isoformat] is the identity.
    - [json.dumps] followed by [json.loads] is the identity on JSON trees;
      the model keeps the tree that [json.dumps] serialises, after the
      custom encoder has replaced the message objects. *)

From Stdlib Require Import ZArith Ascii String.
From stdpp Require Import base list strings gmap.

(** ** Python string primitives *)

Module PyStr.

Definition nl : ascii := "010"%char.

(** The blank-line separator ['\n\n']. *)
Definition blank_line : string := String nl (String nl "").

(** [str.isspace] on one character (code points below 256). *)
Definition isspace (c : ascii) : bool :=
  let n := N_of_ascii c in
  ((9 <=? n) && (n <=? 13) || (28 <=? n) && (n <=? 32)
   || (n =? 133) || (n =? 160))%N.

(** [str.lower] on one character (code points below 256). *)
Definition lower_char (c : ascii) : ascii :=
  let n := N_of_ascii c in
  if ((65 <=? n) && (n <=? 90) || (192 <=? n) && (n <=? 214)
      || (216 <=? n) && (n <=? 222))%N
  then ascii_of_N (n + 32) else c.

Fixpoint lower (s : string) : string :=
  match s with
  | EmptyString => EmptyString
  | String c s' => String (lower_char c) (lower s')
  end.

(** [needle in hay]: [needle] starts at some position of [hay]. *)
Fixpoint contains (needle hay : string) : bool :=
  String.prefix needle hay ||
  match hay with
  | EmptyString => false
  | String _ hay' => contains needle hay'
  end.

(** Truthiness of a string: non-empty. *)
Definition nonempty (s : string) : bool :=
  match s with EmptyString => false | String _ _ => true end.

Fixpoint lstrip (s : string) : string :=
  match s with
  | EmptyString => EmptyString
  | String c s' => if isspace c then lstrip s' else s
  end.

Fixpoint rstrip (s : string) : string :=
  match s with
  | EmptyString => EmptyString
  | String c s' =>
      match rstrip s' with
      | EmptyString => if isspace c then EmptyString else String c EmptyString
      | r => String c r
      end
  end.

(** [s.strip()] *)
Definition strip (s : string) : string := rstrip (lstrip s).

(** Put a character in front of the piece under construction. *)
Definition push_char (c : ascii) (pieces : list string) : list string :=
  match pieces with
  | [] => [String c EmptyString]
  | p :: ps => String c p :: ps
  end.

(** [s.split(sep)] for a non-empty [sep]: a left-to-right scan that cuts
    at each occurrence of [sep] not overlapping the previous cut.  [skip]
    counts the characters of the separator just matched that are still to
    be passed over. *)
Fixpoint split_from (sep : string) (skip : nat) (s : string) : list string :=
  match s with
  | EmptyString => [EmptyString]
  | String c s' =>
      match skip with
      | S k => split_from sep k s'
      | O =>
          if String.prefix sep s
          then EmptyString :: split_from sep (String.length sep - 1) s'
          else push_char c (split_from sep 0 s')
      end
  end.

Definition split (sep s : string) : list string := split_from sep 0 s.

(** [sep.join(pieces)] *)
Definition join (sep : string) (pieces : list string) : string :=
  String.concat sep pieces.

Definition head_char (s : string) : option ascii :=
  match s with EmptyString => None | String c _ => Some c end.

Fixpoint last_char (s : string) : option ascii :=
  match s with
  | EmptyString => None
  | String c EmptyString => Some c
  | String _ s' => last_char s'
  end.

End PyStr.

(** ** The response formatter ([ChatService._format_response]) *)

Import PyStr.

Definition _format_response (text : string) : string :=
  let text := strip text in
  let paragraphs :=
    map strip (List.filter (fun p => nonempty (strip p)) (split blank_line text)) in
  join blank_line paragraphs.

(** ** Python values, exceptions and results *)

(** The message classes of LangChain the service meets.  [System] stands
    for every subclass of [BaseMessage] other than the two the checkpoint
    decoder rebuilds. *)
Inductive message_class : Type := Human | AI | System.

(** [obj.__class__.__name__] *)
Definition class_name (cls : message_class) : string :=
  match cls with
  | Human => "HumanMessage"
  | AI => "AIMessage"
  | System => "SystemMessage"
  end.

(** [obj.type] *)
Definition type_tag (cls : message_class) : string :=
  match cls with
  | Human => "human"
  | AI => "ai"
  | System => "system"
  end.

(** A message object carries the attributes the service reads: its class,
    [content] (text) and [additional_kwargs] (a dictionary). *)
Set Warnings "-register-all".
Inductive value : Type :=
| VNone
| VBool (b : bool)
| VInt (n : Z)
| VStr (s : string)
| VList (items : list value)
| VDict (entries : list (string * value))
| VMsg (cls : message_class) (content : string)
       (additional_kwargs : list (string * value)).

Abbreviation dict := (list (string * value)).

Definition HumanMessage (content : string) (additional_kwargs : dict) : value :=
  VMsg Human content additional_kwargs.

Definition AIMessage (content : string) (additional_kwargs : dict) : value :=
  VMsg AI content additional_kwargs.

Inductive exn : Type :=
| ClientError (code : string)
| IndexError
| KeyError (key : value)
| AttributeError
| TypeError
| ValidationError.

Inductive result (A : Type) : Type :=
| Ok (a : A)
| Raise (e : exn).

Arguments Ok {A} a.
Arguments Raise {A} e.

#[global] Instance result_ret : MRet result := fun A a => Ok a.

#[global] Instance result_bind : MBind result := fun A B f m =>
  match m with
  | Ok a => f a
  | Raise e => Raise e
  end.

#[global] Instance result_fmap : FMap result := fun A B f m =>
  match m with
  | Ok a => Ok (f a)
  | Raise e => Raise e
  end.

(** [key in d] and [d.get(key)]: the first entry under [key]. *)
Fixpoint dict_get (d : dict) (key : string) : option value :=
  match d with
  | [] => None
  | (k, v) :: d' => if String.eqb k key then Some v else dict_get d' key
  end.

(** [d[key]] *)
Definition dict_getitem (d : dict) (key : string) : result value :=
  match dict_get d key with
  | Some v => Ok v
  | None => Raise (KeyError (VStr key))
  end.

(** [l[i]] for a non-negative index *)
Definition list_getitem (l : list value) (i : nat) : result value :=
  match l !! i with
  | Some v => Ok v
  | None => Raise IndexError
  end.

(** [obj.content] *)
Definition getattr_content (obj : value) : result string :=
  match obj with
  | VMsg _ content _ => Ok content
  | _ => Raise AttributeError
  end.

(** [isinstance(obj, HumanMessage)] *)
Definition isinstance_HumanMessage (obj : value) : bool :=
  match obj with
  | VMsg Human _ _ => true
  | _ => false
  end.

(** [isinstance(obj, BaseMessage)] *)
Definition isinstance_BaseMessage (obj : value) : bool :=
  match obj with
  | VMsg _ _ _ => true
  | _ => false
  end.

(** Truth value of an object in a condition. *)
Definition truthy (obj : value) : bool :=
  match obj with
  | VNone => false
  | VBool b => b
  | VInt n => negb (n =? 0)%Z
  | VStr s => nonempty s
  | VList items => match items with [] => false | _ => true end
  | VDict entries => match entries with [] => false | _ => true end
  | VMsg _ _ _ => true
  end.

(** ** The rule matcher ([ChatService._call_model]) *)

Record QAPair : Type := { question : string; answer : string }.

(** The service object; [qa_pairs] is the table read from the knowledge
    base file at start-up. *)
Record ChatService : Type := { qa_pairs : list QAPair }.

Record MessagesState : Type := { messages : list value }.

Definition topic_keywords : list (string * list string) :=
  [ ("business hours",
      ["hour"; "open"; "close"; "time"; "operating"; "when do you"]);
    ("password reset",
      ["password"; "login"; "account"; "reset"; "forgot";
       "recover"; "change"; "update"; "lost"; "cant log"; "can't log";
       "how do i reset"; "how to reset"; "how can i reset"]);
    ("payment methods",
      ["pay"; "payment"; "credit card"; "invoice"; "method"; "how to pay"]);
    ("customer support",
      ["contact"; "support"; "help"; "email"; "phone"; "reach"; "speak to"]);
    ("refund policy",
      ["refund"; "return"; "money back"; "guarantee"; "cancel";
       "get money back"]) ].

Definition refusal : string :=
  "I can only answer questions about our business operations.".

(** [pair["question"].lower() in last_message] *)
Definition exact_match (last_message : string) (p : QAPair) : bool :=
  contains (lower (question p)) last_message.

(** [f" {kw} " in f" {last_message} "] *)
Definition keyword_match (last_message kw : string) : bool :=
  contains (" " +:+ kw +:+ " ") (" " +:+ last_message +:+ " ").

(** [next((p for p in self.qa_pairs if topic in p["question"].lower()), None)] *)
Definition relevant_pair (self : ChatService) (topic : string) : option QAPair :=
  List.find (fun p => contains topic (lower (question p))) (qa_pairs self).

(** The loop over the topics: a topic whose keywords match answers with
    its relevant pair when there is one, and is passed over otherwise. *)
Fixpoint related_answer (self : ChatService) (last_message : string)
    (topics : list (string * list string)) : option QAPair :=
  match topics with
  | [] => None
  | (topic, keywords) :: topics' =>
      if existsb (keyword_match last_message) keywords
      then match relevant_pair self topic with
           | Some p => Some p
           | None => related_answer self last_message topics'
           end
      else related_answer self last_message topics'
  end.

Definition _call_model (self : ChatService) (state : MessagesState)
  : result MessagesState :=
  last_obj ← match last (messages state) with
             | Some obj => Ok obj
             | None => Raise IndexError
             end;
  content ← getattr_content last_obj;
  let last_message := lower content in
  match List.find (exact_match last_message) (qa_pairs self) with
  | Some p =>
      Ok {| messages := messages state ++ [AIMessage (answer p) []] |}
  | None =>
      match related_answer self last_message topic_keywords with
      | Some p =>
          Ok {| messages := messages state ++ [AIMessage (answer p) []] |}
      | None =>
          Ok {| messages := messages state ++ [AIMessage refusal []] |}
      end
  end.


(** ** The checkpoint store ([S3MemorySaver]) *)

(** A datetime, by its ISO-8601 text. *)
Definition datetime : Type := string.

(** The world the service runs in: the objects of the bucket (each body is
    a JSON object), the keys on which the backend answers with an error
    (and the error code it gives), and the clock with the number of
    readings taken so far. *)
Record world : Type := {
  objects : gmap string dict;
  s3_fault : string -> option string;
  clock : nat -> datetime;
  ticks : nat
}.

(** [datetime.now()] *)
Definition datetime_now (w : world) : datetime * world :=
  (clock w (ticks w),
   {| objects := objects w; s3_fault := s3_fault w;
      clock := clock w; ticks := S (ticks w) |}).

(** [s3_client.get_object(Bucket=..., Key=key)], body parsed. *)
Definition get_object (w : world) (key : string) : result dict :=
  match s3_fault w key with
  | Some code => Raise (ClientError code)
  | None =>
      match objects w !! key with
      | Some body => Ok body
      | None => Raise (ClientError "NoSuchKey")
      end
  end.

(** [s3_client.put_object(Bucket=..., Key=key, Body=body)] *)
Definition put_object (w : world) (key : string) (body : dict) : result world :=
  match s3_fault w key with
  | Some code => Raise (ClientError code)
  | None =>
      Ok {| objects := <[key := body]> (objects w); s3_fault := s3_fault w;
            clock := clock w; ticks := ticks w |}
  end.

(** [MessageEncoder.default]: the dictionary that stands for an object
    the JSON encoder cannot serialise itself. *)
Definition MessageEncoder_default (obj : value) : result value :=
  match obj with
  | VMsg cls content additional_kwargs =>
      Ok (VDict [ ("_type", VStr (class_name cls));
                  ("content", VStr content);
                  ("additional_kwargs", VDict additional_kwargs);
                  ("type", VStr (type_tag cls)) ])
  | _ => Raise TypeError
  end.

(** [json.dumps(obj, cls=MessageEncoder)], as the JSON tree written: a
    message object is replaced by what [default] gives for it, which is
    serialised in turn. *)
Fixpoint json_dumps (obj : value) : value :=
  match obj with
  | VList items => VList (map json_dumps items)
  | VDict entries => VDict (map (fun kv => (kv.1, json_dumps kv.2)) entries)
  | VMsg cls content additional_kwargs =>
      VDict [ ("_type", VStr (class_name cls));
              ("content", VStr content);
              ("additional_kwargs",
                VDict (map (fun kv => (kv.1, json_dumps kv.2)) additional_kwargs));
              ("type", VStr (type_tag cls)) ]
  | _ => obj
  end.

Definition json_dumps_entries (entries : dict) : dict :=
  map (fun kv => (kv.1, json_dumps kv.2)) entries.

(** [HumanMessage(content=..., additional_kwargs=...)] and
    [AIMessage(...)] on decoded data: the constructor validates the types
    of its fields (text content, dictionary [additional_kwargs]). *)
Definition new_message (cls : message_class) (content additional_kwargs : value)
  : result value :=
  match content, additional_kwargs with
  | VStr s, VDict kw => Ok (VMsg cls s kw)
  | _, _ => Raise ValidationError
  end.

Definition message_of_data (cls : message_class) (data : dict) : result value :=
  content ← dict_getitem data "content";
  additional_kwargs ← dict_getitem data "additional_kwargs";
  new_message cls content additional_kwargs.

(** [S3MemorySaver._deserialize_messages] *)
Fixpoint _deserialize_messages (data : value) : result value :=
  match data with
  | VDict entries =>
      let generic :=
        VDict <$> mapM (fun kv => v ← _deserialize_messages kv.2; Ok (kv.1, v))
                       entries in
      match dict_get entries "_type" with
      | Some (VStr msg_type) =>
          if String.eqb msg_type "HumanMessage"
          then message_of_data Human entries
          else if String.eqb msg_type "AIMessage"
          then message_of_data AI entries
          else generic
      | _ => generic
      end
  | VList items => VList <$> mapM _deserialize_messages items
  | _ => Ok data
  end.

(** [S3MemorySaver._get_s3_key] *)
Definition _get_s3_key (session_id : string) : string :=
  "chat_histories/" +:+ session_id +:+ ".json".

(** [S3MemorySaver.get]: [None] for an absent record, the decoded state
    for a stored one; any other backend error is raised again. *)
Definition get (w : world) (session_id : string) : result value :=
  let s3_key := _get_s3_key session_id in
  match get_object w s3_key with
  | Ok data =>
      match dict_get data "state" with
      | Some state => _deserialize_messages state
      | None => _deserialize_messages (VDict data)
      end
  | Raise (ClientError code) =>
      if String.eqb code "NoSuchKey" then Ok VNone else Raise (ClientError code)
  | Raise e => Raise e
  end.

(** [x or {}] *)
Definition or_empty_dict (x : value) : value :=
  if truthy x then x else VDict [].

(** [S3MemorySaver.put] *)
Definition put (w : world) (session_id : string) (data metadata new_versions : value)
  : result world :=
  let s3_key := _get_s3_key session_id in
  let '(now, w) := datetime_now w in
  let save_data :=
    [ ("state", data);
      ("metadata", or_empty_dict metadata);
      ("new_versions", or_empty_dict new_versions);
      ("last_updated", VStr now) ] in
  put_object w s3_key (json_dumps_entries save_data).

(** [ChatService._save_checkpoint] *)
Definition _save_checkpoint (w : world) (session_id : string)
    (msgs : list value) (language : string) : result world :=
  let '(now, w) := datetime_now w in
  put w session_id
      (VDict [("messages", VList msgs); ("language", VStr language)])
      (VDict [("timestamp", VStr now); ("language", VStr language)])
      (VDict [("messages", VInt (Z.of_nat (length msgs)))]).

(** ** The history reconstructor ([ChatService.get_chat_history]) *)

(** The response models of [models/chat_history.py]. *)
Module History.

Record Message : Type := {
  content : string;
  role : string;
  timestamp : datetime
}.

Record ChatHistoryResponse : Type := {
  thread_id : string;
  messages : list Message;
  language : string
}.

End History.

Import History (Message, ChatHistoryResponse).

(** [len(obj)] *)
Definition py_len (obj : value) : result nat :=
  match obj with
  | VStr s => Ok (String.length s)
  | VList items => Ok (length items)
  | VDict entries => Ok (length entries)
  | _ => Raise TypeError
  end.

(** [obj[i]] for a non-negative integer [i]; the keys of a dictionary are
    texts, so no integer is among them. *)
Definition py_getitem (obj : value) (i : nat) : result value :=
  match obj with
  | VList items => list_getitem items i
  | VStr s =>
      match String.get i s with
      | Some c => Ok (VStr (String c EmptyString))
      | None => Raise IndexError
      end
  | VDict _ => Raise (KeyError (VInt (Z.of_nat i)))
  | _ => Raise TypeError
  end.

(** [range(start, stop, step)] for a positive [step]. *)
Fixpoint py_range_from (fuel start stop step : nat) : list nat :=
  match fuel with
  | O => []
  | S fuel' =>
      if decide (start < stop)
      then start :: py_range_from fuel' (start + step) stop step
      else []
  end.

Definition py_range (start stop step : nat) : list nat :=
  py_range_from stop start stop step.

(** A [for] loop whose body updates the loop state or raises. *)
Fixpoint for_each {A S : Type} (body : A -> S -> result S) (items : list A) (s : S)
  : result S :=
  match items with
  | [] => Ok s
  | x :: items' => s' ← body x s; for_each body items' s'
  end.

(** The body of the loop of [get_chat_history] at index [i]; the loop
    state is the transcript built so far and the world (for its clock). *)
Definition history_step (msg_list : value) (i : nat) (st : list Message * world)
  : result (list Message * world) :=
  let '(transcript, w) := st in
  human_msg ← py_getitem msg_list i;
  if negb (isinstance_HumanMessage human_msg) then Ok (transcript, w)
  else
    n ← py_len msg_list;
    assistant_msg ← (if decide (i + 1 < n) then py_getitem msg_list (i + 1)
                     else Ok VNone);
    let '(current_time, w) := datetime_now w in
    human_content ← getattr_content human_msg;
    let transcript :=
      transcript ++ [ {| History.content := human_content;
                         History.role := "human";
                         History.timestamp := current_time |} ] in
    if truthy assistant_msg
    then
      assistant_content ← getattr_content assistant_msg;
      Ok (transcript ++ [ {| History.content := assistant_content;
                             History.role := "assistant";
                             History.timestamp := current_time |} ], w)
    else Ok (transcript, w).

(** Lines 216-244: the walk over the stored message list. *)
Definition reconstruct (msg_list : value) (w : world)
  : result (list Message * world) :=
  n ← py_len msg_list;
  for_each (history_step msg_list) (py_range 0 n 2) ([], w).

(** [checkpoint.get("metadata", {}).get("language", "English")], as the
    response model takes it (a text). *)
Definition checkpoint_language (checkpoint : dict) : result string :=
  match default (VDict []) (dict_get checkpoint "metadata") with
  | VDict metadata =>
      match default (VStr "English") (dict_get metadata "language") with
      | VStr language => Ok language
      | _ => Raise ValidationError
      end
  | _ => Raise AttributeError
  end.

Definition is_Some_b {A : Type} (o : option A) : bool :=
  match o with Some _ => true | None => false end.

Definition empty_history (thread_id : string) : ChatHistoryResponse :=
  {| History.thread_id := thread_id;
     History.messages := [];
     History.language := "English" |}.

(** [ChatService.get_chat_history]; its handler logs the exception and
    raises it again. *)
Definition get_chat_history (w : world) (thread_id : string)
  : result (ChatHistoryResponse * world) :=
  checkpoint ← get w thread_id;
  match checkpoint with
  | VDict entries =>
      if negb (truthy checkpoint) || negb (is_Some_b (dict_get entries "messages"))
      then Ok (empty_history thread_id, w)
      else
        msg_list ← dict_getitem entries "messages";
        '(transcript, w') ← reconstruct msg_list w;
        language ← checkpoint_language entries;
        Ok ({| History.thread_id := thread_id;
               History.messages := transcript;
               History.language := language |}, w')
  | _ => Ok (empty_history thread_id, w)
  end.

(** ** The history route of [main.py] *)

Module main.

Inductive http_response : Type :=
| Http200 (body : ChatHistoryResponse)
| HttpError (status : nat).

(** [GET /chat/history/{thread_id}]: 404 for an empty transcript, 500 for
    any exception of the service. *)
Definition get_chat_history (w : world) (thread_id : string) : http_response :=
  match get_chat_history w thread_id with
  | Ok (response, _) =>
      match History.messages response with
      | [] => HttpError 404
      | _ :: _ => Http200 response
      end
  | Raise _ => HttpError 500
  end.

End main.

(** ** The session cache ([ChatService.get_or_create_chat_history]) *)

(** The cache maps a session id to the message list object of the session
    (whatever object the checkpoint held under "messages"). *)
Abbreviation cache := (gmap string value).

(** A miss asks the store; every exception on the way (of the store, of
    the decoder, of [len] in the log line) is caught and gives an empty
    history.  The store is only read. *)
Definition get_or_create_chat_history (chat_histories : cache) (w : world)
    (session_id : string) : value * cache :=
  match chat_histories !! session_id with
  | Some history => (history, chat_histories)
  | None =>
      let loaded :=
        match get w session_id with
        | Ok (VDict entries) =>
            if truthy (VDict entries) && is_Some_b (dict_get entries "messages")
            then match dict_getitem entries "messages" with
                 | Ok msgs =>
                     match py_len msgs with
                     | Ok _ => msgs
                     | Raise _ => VList []
                     end
                 | Raise _ => VList []
                 end
            else VList []
        | Ok _ => VList []
        | Raise _ => VList []
        end in
      (loaded, <[session_id := loaded]> chat_histories)
  end.

(** ** Session ids ([ChatService._generate_session_id]) *)

(** One lower-case hexadecimal digit. *)
Definition hex_digit (d : N) : ascii :=
  match String.get (N.to_nat d) "0123456789abcdef" with
  | Some c => c
  | None => "0"%char
  end.

(** The digits of [n] in base 16, in front of [acc]; [fuel] bounds their
    number. *)
Fixpoint hex_digits (fuel : nat) (n : N) (acc : string) : string :=
  match fuel with
  | O => acc
  | S fuel' =>
      if (n <? 16)%N then String (hex_digit n) acc
      else hex_digits fuel' (n / 16)%N (String (hex_digit (n mod 16)%N) acc)
  end.

(** [format(n, 'x')] for [n >= 0] *)
Definition format_x (n : N) : string :=
  hex_digits (S (N.to_nat (N.log2 n))) n "".

Fixpoint zeros (k : nat) : string :=
  match k with
  | O => EmptyString
  | S k' => String "0" (zeros k')
  end.

(** [format(n, '08x')] for [n >= 0]: zero-padded on the left to width 8 *)
Definition format_08x (n : N) : string :=
  let digits := format_x n in
  zeros (8 - String.length digits) +:+ digits.

Section SessionId.

(** [hash] on texts, fixed for the life of the process, and
    [strftime('%Y%m%d%H%M%S')]. *)
Variable hash : string -> Z.
Variable strftime : datetime -> string.

(** [format(hash(message) % (2**32), '08x')] *)
Definition hash_part (message : string) : string :=
  format_08x (Z.to_N (hash message mod 2 ^ 32)).

Definition _generate_session_id (w : world) (message : string) : string * world :=
  let '(now, w) := datetime_now w in
  (strftime now +:+ "-" +:+ hash_part message, w).

End SessionId.

(** ** The orchestrator ([ChatService.process_chat]) and its route *)

(** The request and response models of [models/chat.py]. *)
Module Request.

Record ChatRequest : Type := {
  message : string;
  language : string;
  thread_id : option string
}.

End Request.

Module Response.

Record ChatResponse : Type := {
  response : string;
  language : string;
  timestamp : datetime
}.

End Response.

Import Request (ChatRequest).
Import Response (ChatResponse).

(** What a call of [process_chat] raises: an exception of the steps it
    runs, or its own [ValueError("No response generated")]. *)
Inductive chat_error : Type :=
| Raised (e : exn)
| NoResponseGenerated.

(** The mutable state of the service: the session cache and the world. *)
Record service_state : Type := {
  chat_histories : cache;
  env : world
}.

(** [history.append(obj)]: only a list has the method. *)
Definition py_append (history obj : value) : result value :=
  match history with
  | VList items => Ok (VList (items ++ [obj]))
  | _ => Raise AttributeError
  end.

(** The world after [n] more readings of the clock. *)
Definition after_readings (n : nat) (w : world) : world :=
  {| objects := objects w; s3_fault := s3_fault w;
     clock := clock w; ticks := n + ticks w |}.

Section Orchestrator.

Variable hash : string -> Z.
Variable strftime : datetime -> string.

(** The compiled workflow: from the input state and the session id to the
    message list of the state it returns, [None] when that state has no
    "messages" entry. *)
Variable ainvoke : value -> string -> result (option (list value)).

(** [request.thread_id or self._generate_session_id(request.message)] *)
Definition resolve_session_id (w : world) (request : ChatRequest) : string * world :=
  match Request.thread_id request with
  | Some t =>
      if nonempty t then (t, w)
      else _generate_session_id hash strftime w (Request.message request)
  | None => _generate_session_id hash strftime w (Request.message request)
  end.

(** [ChatService.process_chat].  The state is returned on every path: what
    the call has done to the cache and the store before an exception
    stays done.  The list the human message is appended to is the cached
    one.  A failed save has read the clock twice and written nothing. *)
Definition process_chat (st : service_state) (request : ChatRequest)
  : (chat_error + ChatResponse) * service_state :=
  let '(session_id, w) := resolve_session_id (env st) request in
  let '(chat_history, histories) :=
    get_or_create_chat_history (chat_histories st) w session_id in
  match py_append chat_history (HumanMessage (Request.message request) []) with
  | Raise e => (inl (Raised e), {| chat_histories := histories; env := w |})
  | Ok chat_history =>
      let histories := <[session_id := chat_history]> histories in
      match ainvoke (VDict [("messages", chat_history);
                            ("language", VStr (Request.language request))])
                    session_id with
      | Raise e => (inl (Raised e), {| chat_histories := histories; env := w |})
      | Ok None =>
          (inl NoResponseGenerated, {| chat_histories := histories; env := w |})
      | Ok (Some output_messages) =>
          let histories := <[session_id := VList output_messages]> histories in
          match _save_checkpoint w session_id output_messages
                  (Request.language request) with
          | Raise e =>
              (inl (Raised e),
               {| chat_histories := histories; env := after_readings 2 w |})
          | Ok w =>
              match (last_obj ← match last output_messages with
                                | Some obj => Ok obj
                                | None => Raise IndexError
                                end;
                     getattr_content last_obj) with
              | Raise e =>
                  (inl (Raised e), {| chat_histories := histories; env := w |})
              | Ok raw_response =>
                  let formatted_response := _format_response raw_response in
                  let '(now, w) := datetime_now w in
                  (inr {| Response.response := formatted_response;
                          Response.language := Request.language request;
                          Response.timestamp := now |},
                   {| chat_histories := histories; env := w |})
              end
          end
      end
  end.

(** [POST /chat] of [main.py]: the response of the service, or status 500
    for any exception. *)
Inductive chat_http_response : Type :=
| ChatOk (body : ChatResponse)
| ChatError (status : nat).

Definition chat (st : service_state) (request : ChatRequest)
  : chat_http_response * service_state :=
  match process_chat st request with
  | (inr response, st') => (ChatOk response, st')
  | (inl _, st') => (ChatError 500, st')
  end.

End Orchestrator.

(** ** Expiry of old sessions ([S3MemorySaver.cleanup_old_sessions]) *)

(** [s.endswith(suffix)] *)
Definition endswith (s suffix : string) : bool :=
  (String.length suffix <=? String.length s) &&
  String.eqb
    (String.substring (String.length s - String.length suffix)
       (String.length suffix) s)
    suffix.

(** An entry of a listing page. *)
Record listed_object : Type := {
  Key : string;
  LastModified : datetime
}.

(** [s3_client.delete_object(Bucket=..., Key=key)]: deleting an absent
    object is no error. *)
Definition delete_object (w : world) (key : string) : result world :=
  match s3_fault w key with
  | Some code => Raise (ClientError code)
  | None =>
      Ok {| objects := delete key (objects w); s3_fault := s3_fault w;
            clock := clock w; ticks := ticks w |}
  end.

Section Cleanup.

(** [(a - b.replace(tzinfo=None)).days] *)
Variable days_between : datetime -> datetime -> Z.

(** The loop over the objects of one page; the world is returned also
    when a deletion raises, with the deletions done before it. *)
Fixpoint cleanup_contents (current_time : datetime) (max_age_days : Z)
    (contents : list listed_object) (w : world) : result unit * world :=
  match contents with
  | [] => (Ok tt, w)
  | obj :: contents' =>
      if negb (endswith (Key obj) ".json")
      then cleanup_contents current_time max_age_days contents' w
      else
        let age := days_between current_time (LastModified obj) in
        if (max_age_days <? age)%Z
        then match delete_object w (Key obj) with
             | Ok w' => cleanup_contents current_time max_age_days contents' w'
             | Raise e => (Raise e, w)
             end
        else cleanup_contents current_time max_age_days contents' w
  end.

(** The loop over the pages the paginator yields for the prefix
    "chat_histories/"; [None] is a page without 'Contents'. *)
Fixpoint cleanup_pages (current_time : datetime) (max_age_days : Z)
    (pages : list (option (list listed_object))) (w : world)
  : result unit * world :=
  match pages with
  | [] => (Ok tt, w)
  | None :: pages' => cleanup_pages current_time max_age_days pages' w
  | Some contents :: pages' =>
      match cleanup_contents current_time max_age_days contents w with
      | (Ok _, w') => cleanup_pages current_time max_age_days pages' w'
      | (Raise e, w') => (Raise e, w')
      end
  end.

(** [S3MemorySaver.cleanup_old_sessions] on the pages listed. *)
Definition cleanup_old_sessions (w : world)
    (pages : list (option (list listed_object))) (max_age_days : Z)
  : result unit * world :=
  let '(current_time, w) := datetime_now w in
  cleanup_pages current_time max_age_days pages w.

End Cleanup.

(** ** Predicates on texts used by the formatter properties *)

(** The character is a newline. *)
Definition is_nl (c : ascii) : bool := if ascii_dec nl c then true else false.

(** [s] begins with a blank-line separator. *)
Definition starts_nn (s : string) : bool :=
  match s with
  | String a (String b _) => is_nl a && is_nl b
  | _ => false
  end.

(** No blank-line separator occurs in [s]. *)
Fixpoint no_nn (s : string) : bool :=
  match s with
  | EmptyString => true
  | String _ s' => negb (starts_nn s) && no_nn s'
  end.

(** No separator occurs in [s], and [s] does not end in a newline: no
    separator can straddle the end of [s]. *)
Definition tight (s : string) : bool := no_nn (s +:+ String nl "").

(** [s] begins with a newline. *)
Definition starts_nl (s : string) : bool :=
  match s with
  | String a _ => is_nl a
  | EmptyString => false
  end.

(** No three newlines in a row occur in [s]. *)
Fixpoint no_nnn (s : string) : bool :=
  match s with
  | EmptyString => true
  | String a s' => negb (is_nl a && starts_nn s') && no_nnn s'
  end.

(** [s] neither begins nor ends with a whitespace character. *)
Definition trimmed (s : string) : Prop :=
  (forall c, head_char s = Some c -> isspace c = false) /\
  (forall c, last_char s = Some c -> isspace c = false).

(** What [_format_response] keeps of a piece: non-empty, stripped, and
    tight. *)
Definition good (q : string) : Prop :=
  q <> "" /\ trimmed q /\ tight q = true.

(** ** Statements about the rule matcher *)

(** The first topic, in declared order, one of whose keywords matches. *)
Definition first_keyword_topic (last_message : string)
  : option (string * list string) :=
  List.find (fun tk => existsb (keyword_match last_message) tk.2) topic_keywords.

(** The keyword rule read literally: when no question matches exactly, the
    reply is the answer of the relevant pair of the first topic one of whose
    keywords matches. *)
Definition keyword_rule_literal (self : ChatService) (state : MessagesState)
    (m : string) : Prop :=
  List.find (exact_match (lower m)) (qa_pairs self) = None ->
  forall topic keywords,
    first_keyword_topic (lower m) = Some (topic, keywords) ->
    exists p, relevant_pair self topic = Some p /\
      _call_model self state =
        Ok {| messages := messages state ++ [AIMessage (answer p) []] |}.

(** A one-entry knowledge base and a message for the examples. *)
Definition refund_only : ChatService :=
  {| qa_pairs := [ {| question := "What is your refund policy?";
                      answer := "Refunds within 30 days." |} ] |}.

Definition ask (text : string) : MessagesState :=
  {| messages := [HumanMessage text []] |}.

(** ** Statements about the checkpoint store *)

(** A human or assistant message object. *)
Definition is_human_or_ai (obj : value) : bool :=
  match obj with
  | VMsg Human _ _ | VMsg AI _ _ => true
  | _ => false
  end.

(** JSON data: no message object inside. *)
Fixpoint is_json (obj : value) : bool :=
  match obj with
  | VList items => forallb is_json items
  | VDict entries => forallb (fun kv => is_json kv.2) entries
  | VMsg _ _ _ => false
  | _ => true
  end.

(** The [additional_kwargs] of a message object are JSON data. *)
Definition json_kwargs (obj : value) : bool :=
  match obj with
  | VMsg _ _ additional_kwargs => forallb (fun kv => is_json kv.2) additional_kwargs
  | _ => false
  end.

(** The class of a message object. *)
Definition class_of (obj : value) : option message_class :=
  match obj with
  | VMsg cls _ _ => Some cls
  | _ => None
  end.

(** Two objects are messages of the same class with the same content. *)
Definition same_kind_and_content (m m' : value) : Prop :=
  isinstance_BaseMessage m = true /\
  class_of m' = class_of m /\
  getattr_content m' = getattr_content m.

(** What a stored message object is read back as: the same message, with
    its [additional_kwargs] as serialised. *)
Definition read_back (obj : value) : value :=
  match obj with
  | VMsg cls content additional_kwargs =>
      VMsg cls content (json_dumps_entries additional_kwargs)
  | _ => obj
  end.

(** The state the service saves for a session. *)
Definition session_state (msgs : list value) (language : string) : value :=
  VDict [("messages", VList msgs); ("language", VStr language)].

(** The body [put] writes for a session state. *)
Definition checkpoint_record (msgs : list value) (language : string)
    (metadata new_versions : value) (last_updated : datetime) : dict :=
  json_dumps_entries
    [ ("state", session_state msgs language);
      ("metadata", metadata);
      ("new_versions", new_versions);
      ("last_updated", VStr last_updated) ].

(** The bucket holds, for [thread_id], a checkpoint of human and assistant
    messages, and the backend answers for its key. *)
Definition stored_checkpoint (w : world) (thread_id : string)
    (msgs : list value) (language : string)
    (metadata new_versions : value) (last_updated : datetime) : Prop :=
  s3_fault w (_get_s3_key thread_id) = None /\
  objects w !! _get_s3_key thread_id =
    Some (checkpoint_record msgs language metadata new_versions last_updated) /\
  Forall (fun m => is_human_or_ai m = true) msgs.

(** The language entry of the metadata of a stored body. *)
Definition metadata_language (record : dict) : option value :=
  match dict_get record "metadata" with
  | Some (VDict metadata) => dict_get metadata "language"
  | _ => None
  end.

(** A world with an empty bucket, a backend that answers, and a clock. *)
Definition sample_clock (n : nat) : datetime :=
  "2025-03-01T12:00:0" +:+ String (ascii_of_nat (48 + n mod 10)) "".

Definition quiet_world : world :=
  {| objects := ∅; s3_fault := fun _ => None; clock := sample_clock; ticks := 0 |}.

(** A world whose backend refuses every request. *)
Definition denied_world : world :=
  {| objects := ∅; s3_fault := fun _ => Some "AccessDenied";
     clock := sample_clock; ticks := 0 |}.

(** ** Statements about the history reconstructor *)

(** The read-history path swallows a failure into an empty transcript. *)
Definition swallowed_into_empty (w : world) (thread_id : string) : Prop :=
  exists response w',
    get_chat_history w thread_id = Ok (response, w') /\
    History.messages response = [].

Definition message_content (obj : value) : string :=
  match obj with
  | VMsg _ content _ => content
  | _ => ""
  end.

(** The transcript as the specification words it: the list is read two
    entries at a time; a stride whose first entry is not a human message is
    skipped; otherwise the first entry gives a human message and the
    second, when there is one, the assistant message paired with it, both
    stamped with one reading of the clock. *)
Fixpoint paired_transcript_spec (msg_list : list value) (w : world)
  : list History.Message * world :=
  match msg_list with
  | [] => ([], w)
  | [human_msg] =>
      if isinstance_HumanMessage human_msg
      then let '(t, w1) := datetime_now w in
           ([ {| History.content := message_content human_msg;
                 History.role := "human"; History.timestamp := t |} ], w1)
      else ([], w)
  | human_msg :: assistant_msg :: rest =>
      if isinstance_HumanMessage human_msg
      then let '(t, w1) := datetime_now w in
           let '(transcript, w2) := paired_transcript_spec rest w1 in
           ({| History.content := message_content human_msg;
               History.role := "human"; History.timestamp := t |}
            :: {| History.content := message_content assistant_msg;
                  History.role := "assistant"; History.timestamp := t |}
            :: transcript, w2)
      else paired_transcript_spec rest w
  end.

(** Even positions hold human messages, odd positions assistant messages. *)
Definition role_pattern (transcript : list History.Message) : Prop :=
  forall i m, transcript !! i = Some m ->
    History.role m = if Nat.even i then "human" else "assistant".

(** A human message is followed by an assistant message or is the last. *)
Definition human_unanswered_only_last (transcript : list History.Message) : Prop :=
  forall i m, transcript !! i = Some m -> History.role m = "human" ->
    i + 1 = length transcript \/
    exists m', transcript !! (i + 1) = Some m' /\ History.role m' = "assistant".

(** A conversation in Spanish, and the world after the service has saved
    it for thread "t1" from [quiet_world]. *)
Definition spanish_thread : list value :=
  [HumanMessage "hola" []; AIMessage refusal []].

Definition saved_world : world :=
  {| objects :=
       {[ _get_s3_key "t1" :=
            checkpoint_record spanish_thread "Spanish"
              (VDict [("timestamp", VStr (sample_clock 0));
                      ("language", VStr "Spanish")])
              (VDict [("messages", VInt 2)])
              (sample_clock 1) ]};
     s3_fault := fun _ => None;
     clock := sample_clock;
     ticks := 2 |}.

(** ** Induction on values *)

(** Induction on values, through the lists nested in them. *)
Section ValueInduction.

Variable P : value -> Prop.
Hypothesis HNone : P VNone.
Hypothesis HBool : forall b, P (VBool b).
Hypothesis HInt : forall n, P (VInt n).
Hypothesis HStr : forall s, P (VStr s).
Hypothesis HList : forall items, Forall P items -> P (VList items).
Hypothesis HDict : forall entries, Forall (fun kv => P kv.2) entries -> P (VDict entries).
Hypothesis HMsg : forall cls content kw,
  Forall (fun kv => P kv.2) kw -> P (VMsg cls content kw).

Fixpoint value_nested_ind (v : value) : P v :=
  let entries_ind :=
    fix go (entries : dict) : Forall (fun kv => P kv.2) entries :=
      match entries with
      | [] => List.Forall_nil _
      | kv :: entries' =>
          List.Forall_cons _ kv entries' (value_nested_ind kv.2) (go entries')
      end in
  match v with
  | VNone => HNone
  | VBool b => HBool b
  | VInt n => HInt n
  | VStr s => HStr s
  | VList items =>
      HList items
        ((fix go (items : list value) : Forall P items :=
            match items with
            | [] => List.Forall_nil _
            | x :: items' =>
                List.Forall_cons _ x items' (value_nested_ind x) (go items')
            end) items)
  | VDict entries => HDict entries (entries_ind entries)
  | VMsg cls content kw => HMsg cls content kw (entries_ind kw)
  end.

End ValueInduction.

(** ** Further notions used by the properties *)

(** The characters of the pieces, counting a separator after each. *)
Fixpoint weight (l : list string) : nat :=
  match l with
  | [] => 0
  | p :: l' => String.length p + 2 + weight l'
  end.


(** Every message object within [obj] is a human or an assistant message. *)
Fixpoint only_human_or_ai (obj : value) : bool :=
  match obj with
  | VList items => forallb only_human_or_ai items
  | VDict entries => forallb (fun kv => only_human_or_ai kv.2) entries
  | VMsg cls _ additional_kwargs =>
      match cls with System => false | _ => true end &&
      forallb (fun kv => only_human_or_ai kv.2) additional_kwargs
  | _ => true
  end.

(** The entry under "_type" is one of the two tags the decoder acts on. *)
Definition is_message_tag (tag : option value) : bool :=
  match tag with
  | Some (VStr t) => String.eqb t "HumanMessage" || String.eqb t "AIMessage"
  | _ => false
  end.

(** No dictionary within [obj] carries a message tag (the fields of a
    message object are not looked into). *)
Fixpoint untagged (obj : value) : bool :=
  match obj with
  | VList items => forallb untagged items
  | VDict entries =>
      negb (is_message_tag (dict_get entries "_type")) &&
      forallb (fun kv => untagged kv.2) entries
  | _ => true
  end.

(** A record stored flat, without the "state" wrapper of [put]. *)
Definition flat_record (msgs : list value) (metadata : dict) : dict :=
  [("messages", json_dumps (VList msgs)); ("metadata", VDict metadata)].

(** The contents and roles of the transcript of a message list, without
    the timestamps. *)
Fixpoint transcript_entries (msg_list : list value) : list (string * string) :=
  match msg_list with
  | [] => []
  | [human_msg] =>
      if isinstance_HumanMessage human_msg
      then [(message_content human_msg, "human")]
      else []
  | human_msg :: assistant_msg :: rest =>
      if isinstance_HumanMessage human_msg
      then (message_content human_msg, "human")
           :: (message_content assistant_msg, "assistant")
           :: transcript_entries rest
      else transcript_entries rest
  end.

Definition entry_of (m : History.Message) : string * string :=
  (History.content m, History.role m).

(** Every stride of two entries begins with a human message. *)
Fixpoint strides_start_human (msg_list : list value) : bool :=
  match msg_list with
  | [] => true
  | [human_msg] => isinstance_HumanMessage human_msg
  | human_msg :: _ :: rest =>
      isinstance_HumanMessage human_msg && strides_start_human rest
  end.

(** [w'] is [w] with the same bucket, backend and clock, after some more
    readings of the clock. *)
Definition only_clock_read (w w' : world) : Prop :=
  objects w' = objects w /\ s3_fault w' = s3_fault w /\
  clock w' = clock w /\ ticks w <= ticks w'.

(** Every message of the transcript carries a reading of the clock of [w]
    numbered from [lo] (included) to [hi] (excluded). *)
Definition stamped_between (w : world) (lo hi : nat)
    (transcript : list History.Message) : Prop :=
  Forall (fun m => exists k, lo <= k < hi /\ History.timestamp m = clock w k)
    transcript.

(** A world whose bucket holds, for thread "old", a record stored flat
    with the language in its metadata. *)
Definition flat_world : world :=
  {| objects :=
       {[ _get_s3_key "old" :=
            flat_record spanish_thread [("language", VStr "Spanish")] ]};
     s3_fault := fun _ => None;
     clock := sample_clock;
     ticks := 0 |}.

(** A world whose bucket holds, for thread "t3", a checkpoint with one
    assistant message and no human message. *)
Definition assistant_only_world : world :=
  {| objects :=
       {[ _get_s3_key "t3" :=
            checkpoint_record [AIMessage "hello" []] "English"
              (VDict []) (VDict []) (sample_clock 0) ]};
     s3_fault := fun _ => None;
     clock := sample_clock;
     ticks := 1 |}.

(** The text is made of lower-case hexadecimal digits. *)
Fixpoint all_hex (s : string) : bool :=
  match s with
  | EmptyString => true
  | String c s' => contains (String c EmptyString) "0123456789abcdef" && all_hex s'
  end.

(** A request on thread "t1", and a service state with an empty cache. *)
Definition hola_request : ChatRequest :=
  {| Request.message := "hola"; Request.language := "Spanish";
     Request.thread_id := Some "t1" |}.

Definition fresh_state (w : world) : service_state :=
  {| chat_histories := ∅; env := w |}.

(** A workflow that fails, and one that answers with a fixed reply. *)
Definition failing_workflow (input : value) (session_id : string)
  : result (option (list value)) := Raise TypeError.

Definition echo_workflow (input : value) (session_id : string)
  : result (option (list value)) :=
  Ok (Some [HumanMessage "hola" []; AIMessage refusal []]).

Definition sample_hash (message : string) : Z := (-1)%Z.

Definition sample_strftime (t : datetime) : string := "20250301120000".

(** The object is among those the pages list. *)
Definition listed (pages : list (option (list listed_object)))
    (obj : listed_object) : Prop :=
  exists contents, Some contents ∈ pages /\ obj ∈ contents.

(** The object is a chat history older than the limit. *)
Definition expired (days_between : datetime -> datetime -> Z)
    (current_time : datetime) (max_age_days : Z) (obj : listed_object) : Prop :=
  endswith (Key obj) ".json" = true /\
  (max_age_days < days_between current_time (LastModified obj))%Z.

(** From [w] to [w'] the backend is the same and the bucket has only lost
    objects, each of them under a key that is [due]. *)
Definition only_removed (due : string -> Prop) (w w' : world) : Prop :=
  s3_fault w' = s3_fault w /\
  forall key, objects w' !! key = objects w !! key \/
              (objects w' !! key = None /\ due key).

(** Ages for the examples: 40 days for the objects modified at "old", 3
    days for the others. *)
Definition sample_days (now modified : datetime) : Z :=
  if String.eqb modified "old" then 40%Z else 3%Z.

Definition sample_pages : list (option (list listed_object)) :=
  [ None;
    Some [ {| Key := _get_s3_key "t1"; LastModified := "old" |};
           {| Key := "chat_histories/notes.txt"; LastModified := "old" |};
           {| Key := _get_s3_key "t2"; LastModified := "new" |} ] ].
(** * Properties *)

(** ** The string primitives *)

Section StringFacts.

#[local] Arguments String.append !_ _ / : simpl nomatch.

Lemma is_nl_space c : is_nl c = true -> isspace c = true.
Proof. unfold is_nl. destruct (ascii_dec nl c) as [<-|]; [reflexivity|discriminate]. Qed.

Lemma prefix_blank_line s : String.prefix blank_line s = starts_nn s.
Proof.
  destruct s as [|a [|b s]]; cbn -[ascii_dec]; unfold is_nl;
    repeat (destruct (ascii_dec _ _)); try reflexivity;
    destruct s; reflexivity.
Qed.

Lemma split_empty : split blank_line "" = [""].
Proof. reflexivity. Qed.

Lemma split_cut r :
  split blank_line (String nl (String nl r)) = "" :: split blank_line r.
Proof.
  unfold split. cbn [split_from]. rewrite prefix_blank_line. reflexivity.
Qed.

Lemma split_keep c s :
  starts_nn (String c s) = false ->
  split blank_line (String c s) = push_char c (split blank_line s).
Proof.
  intros H. unfold split. cbn [split_from].
  rewrite prefix_blank_line, H. reflexivity.
Qed.

Lemma starts_nn_cases s :
  starts_nn s = true -> exists r, s = String nl (String nl r).
Proof.
  destruct s as [|a [|b r]]; cbn -[is_nl]; try discriminate.
  unfold is_nl. destruct (ascii_dec nl a) as [<-|]; [|discriminate].
  destruct (ascii_dec nl b) as [<-|]; [|discriminate]. eauto.
Qed.

(** **** Stripping *)

Lemma lstrip_head s c : head_char (lstrip s) = Some c -> isspace c = false.
Proof.
  induction s as [|a s IH]; cbn; [discriminate|].
  destruct (isspace a) eqn:Ha; [exact IH|].
  cbn. intros [= <-]. exact Ha.
Qed.

Lemma rstrip_head s c : head_char (rstrip s) = Some c -> head_char s = Some c.
Proof.
  destruct s as [|a s]; cbn; [discriminate|].
  destruct (rstrip s); [destruct (isspace a)|]; cbn; congruence.
Qed.

Lemma rstrip_last s c : last_char (rstrip s) = Some c -> isspace c = false.
Proof.
  induction s as [|a s IH]; cbn; [discriminate|].
  destruct (rstrip s) as [|b r] eqn:E.
  - destruct (isspace a) eqn:Ha; cbn; [discriminate|]. intros [= <-]. exact Ha.
  - exact IH.
Qed.

Lemma strip_trimmed s : trimmed (strip s).
Proof.
  split; intros c Hc.
  - apply rstrip_head in Hc. exact (lstrip_head _ _ Hc).
  - exact (rstrip_last _ _ Hc).
Qed.

Lemma lstrip_fixed s :
  (forall c, head_char s = Some c -> isspace c = false) -> lstrip s = s.
Proof.
  destruct s as [|a s]; cbn; [reflexivity|].
  intros H. rewrite (H a eq_refl). reflexivity.
Qed.

Lemma rstrip_fixed s :
  (forall c, last_char s = Some c -> isspace c = false) -> rstrip s = s.
Proof.
  induction s as [|a s IH]; [reflexivity|].
  intros H. cbn [rstrip]. destruct s as [|b s].
  - cbn. rewrite (H a eq_refl). reflexivity.
  - rewrite IH by (intros c Hc; apply H; exact Hc). reflexivity.
Qed.

Lemma strip_fixed s : trimmed s -> strip s = s.
Proof.
  intros [Hh Hl]. unfold strip. rewrite (lstrip_fixed _ Hh). exact (rstrip_fixed _ Hl).
Qed.

Lemma strip_idempotent s : strip (strip s) = strip s.
Proof. apply strip_fixed, strip_trimmed. Qed.

(** **** Separators inside pieces *)

Lemma no_nn_tail c s : no_nn (String c s) = true -> no_nn s = true.
Proof. cbn [no_nn]. intros H. apply andb_prop in H. tauto. Qed.

Lemma no_nn_lstrip s : no_nn s = true -> no_nn (lstrip s) = true.
Proof.
  induction s as [|a s IH]; [reflexivity|].
  intros H. cbn [lstrip]. destruct (isspace a); [|exact H].
  exact (IH (no_nn_tail _ _ H)).
Qed.

(** A right-stripped piece without separator is tight. *)
Lemma tight_rstrip s : no_nn s = true -> tight (rstrip s) = true.
Proof.
  unfold tight. induction s as [|a s IH]; [reflexivity|].
  intros H. pose proof (IH (no_nn_tail _ _ H)) as IH'.
  cbn [rstrip]. destruct (rstrip s) as [|b r] eqn:E.
  - destruct (isspace a) eqn:Ha; [reflexivity|].
    cbn -[is_nl]. destruct (is_nl a) eqn:Hn; [|reflexivity].
    apply is_nl_space in Hn. congruence.
  - assert (Hb : head_char s = Some b) by (apply rstrip_head; rewrite E; reflexivity).
    destruct s as [|b' s']; [discriminate|]. cbn in Hb. injection Hb as ->.
    cbn [no_nn] in H. apply andb_prop in H. destruct H as [H1 _].
    change (String a (String b r) +:+ String nl "")
      with (String a (String b r +:+ String nl "")).
    cbn [no_nn]. rewrite IH'. rewrite andb_true_r.
    exact H1.
Qed.

Lemma tight_strip s : no_nn s = true -> tight (strip s) = true.
Proof. intros H. apply tight_rstrip, no_nn_lstrip, H. Qed.

(** The pieces cut by [split] hold no separator, and the first piece
    begins with a newline only where the text does. *)
Lemma split_pieces n s :
  String.length s <= n ->
  exists p ps, split blank_line s = p :: ps /\
    no_nn p = true /\ Forall (fun q => no_nn q = true) ps /\
    (forall c, head_char p = Some c -> head_char s = Some c).
Proof.
  revert s. induction n as [|n IH]; intros s Hn.
  - destruct s; [|cbn in Hn; lia]. exists "", []. repeat split; auto.
  - destruct s as [|a s]; [exists "", []; repeat split; auto|].
    destruct (starts_nn (String a s)) eqn:Hs.
    + destruct (starts_nn_cases _ Hs) as [r Hr]. rewrite Hr, split_cut.
      injection Hr as -> ->.
      destruct (IH r) as (p & ps & E & Hp & Hps & _); [cbn in Hn; lia|].
      exists "", (split blank_line r). repeat split; auto; [|discriminate].
      rewrite E. constructor; assumption.
    + rewrite (split_keep _ _ Hs).
      destruct (IH s) as (p & ps & E & Hp & Hps & Hh); [cbn in Hn; lia|].
      rewrite E. cbn [push_char]. exists (String a p), ps.
      repeat split; auto.
      cbn [no_nn]. rewrite Hp, andb_true_r.
      destruct p as [|b p']; [reflexivity|].
      specialize (Hh b eq_refl). destruct s as [|b' s']; [discriminate|].
      cbn in Hh. injection Hh as ->.
      cbn [starts_nn] in *. rewrite Hs. reflexivity.
Qed.

Lemma split_no_nn s : Forall (fun q => no_nn q = true) (split blank_line s).
Proof.
  destruct (split_pieces (String.length s) s (le_n _)) as (p & ps & E & Hp & Hps & _).
  rewrite E. constructor; assumption.
Qed.

(** **** Joining and splitting again *)

Lemma nonempty_true s : nonempty s = true <-> s <> "".
Proof. destruct s; cbn; split; congruence. Qed.

Lemma kept_pieces_good l :
  Forall (fun q => no_nn q = true) l ->
  Forall good (map strip (List.filter (fun p => nonempty (strip p)) l)).
Proof.
  induction 1 as [|p l Hp _ IH]; cbn; [constructor|].
  destruct (nonempty (strip p)) eqn:E; [|exact IH].
  cbn. constructor; [|exact IH].
  split; [apply nonempty_true, E|].
  split; [apply strip_trimmed|apply tight_strip, Hp].
Qed.

Lemma good_pieces_kept ps :
  Forall good ps ->
  map strip (List.filter (fun p => nonempty (strip p)) ps) = ps.
Proof.
  induction 1 as [|p ps (Hne & Ht & _) _ IH]; [reflexivity|].
  cbn. rewrite (strip_fixed _ Ht).
  apply nonempty_true in Hne. rewrite Hne. cbn.
  rewrite (strip_fixed _ Ht), IH. reflexivity.
Qed.

Lemma join_cons p q r :
  join blank_line (p :: q :: r) = p +:+ blank_line +:+ join blank_line (q :: r).
Proof. reflexivity. Qed.

Lemma head_char_app p t : p <> "" -> head_char (p +:+ t) = head_char p.
Proof. destruct p; [congruence|reflexivity]. Qed.

Lemma last_char_app p t : t <> "" -> last_char (p +:+ t) = last_char t.
Proof.
  intros Ht. induction p as [|a p IH]; [reflexivity|].
  cbn [String.append last_char]. rewrite IH.
  destruct (p +:+ t) eqn:E; [|reflexivity].
  destruct p; cbn in E; congruence.
Qed.

Lemma join_nonempty q r : q <> "" -> join blank_line (q :: r) <> "".
Proof.
  intros Hq. destruct r; [exact Hq|].
  rewrite join_cons. destruct q; [congruence|discriminate].
Qed.

Lemma join_trimmed ps : Forall good ps -> trimmed (join blank_line ps).
Proof.
  induction 1 as [|p ps (Hne & [Hh Hl] & _) Hps IH]; [split; discriminate|].
  destruct ps as [|q r]; [split; assumption|].
  rewrite join_cons. destruct IH as [_ IHl]. split; intros c.
  - rewrite head_char_app by exact Hne. apply Hh.
  - assert (Hq : join blank_line (q :: r) <> "").
    { apply join_nonempty. inversion Hps as [|? ? (Hq & _) _]. exact Hq. }
    rewrite last_char_app by (destruct (join blank_line (q :: r)); discriminate).
    cbn -[join]. destruct (join blank_line (q :: r)) eqn:E; [congruence|].
    apply IHl.
Qed.

Lemma tight_starts c p :
  tight (String c p) = true -> forall t, starts_nn (String c (p +:+ String nl t)) = false.
Proof.
  unfold tight. cbn [String.append no_nn]. intros H t.
  apply andb_prop in H. destruct H as [H _]. apply negb_true_iff in H.
  destruct p; exact H.
Qed.

Lemma tight_tail c p : tight (String c p) = true -> tight p = true.
Proof. unfold tight. cbn [String.append]. apply no_nn_tail. Qed.

Lemma split_tight p : tight p = true -> split blank_line p = [p].
Proof.
  induction p as [|c p IH]; [reflexivity|].
  intros H. rewrite split_keep.
  - rewrite (IH (tight_tail _ _ H)). reflexivity.
  - pose proof (tight_starts _ _ H "") as Hs.
    destruct p as [|b p]; [reflexivity|exact Hs].
Qed.

Lemma split_app_tight p rest :
  tight p = true ->
  split blank_line (p +:+ blank_line +:+ rest) = p :: split blank_line rest.
Proof.
  induction p as [|c p IH]; intros H.
  - apply split_cut.
  - cbn [String.append]. rewrite split_keep.
    + rewrite (IH (tight_tail _ _ H)). reflexivity.
    + exact (tight_starts _ _ H (String nl rest)).
Qed.

Lemma split_join ps :
  Forall good ps -> ps <> [] -> split blank_line (join blank_line ps) = ps.
Proof.
  induction 1 as [|p ps (_ & _ & Ht) Hps IH]; [congruence|]. intros _.
  destruct ps as [|q r]; [exact (split_tight _ Ht)|].
  rewrite join_cons, (split_app_tight _ _ Ht), IH by discriminate. reflexivity.
Qed.

(** The formatter leaves a text made of good paragraphs as it is. *)
Lemma format_join ps :
  Forall good ps -> _format_response (join blank_line ps) = join blank_line ps.
Proof.
  intros H. unfold _format_response.
  rewrite (strip_fixed _ (join_trimmed _ H)).
  destruct ps as [|p ps]; [reflexivity|].
  rewrite (split_join _ H) by discriminate.
  rewrite (good_pieces_kept _ H). reflexivity.
Qed.

(** The paragraphs the formatter joins are good. *)
Lemma format_paragraphs text :
  exists ps, Forall good ps /\ _format_response text = join blank_line ps.
Proof.
  eexists. split; [|reflexivity].
  apply kept_pieces_good, split_no_nn.
Qed.


(** **** Runs of newlines in the result *)

Lemma starts_nn_nl s : starts_nn (String nl s) = starts_nl s.
Proof. destruct s; reflexivity. Qed.

Lemma starts_nn_not_nl s : starts_nl s = false -> starts_nn s = false.
Proof. destruct s as [|a [|b s]]; cbn -[is_nl]; intros H; rewrite ?H; reflexivity. Qed.

Lemma tight_body c p :
  tight (String c p) = true -> is_nl c = true -> p <> "" /\ starts_nl p = false.
Proof.
  intros Ht Hc. pose proof (tight_starts _ _ Ht "") as Hs.
  destruct p as [|b p]; cbn -[is_nl] in Hs; rewrite Hc in Hs; [discriminate|].
  split; [discriminate|exact Hs].
Qed.

Lemma tight_no_nnn p : tight p = true -> no_nnn p = true.
Proof.
  induction p as [|c p IH]; [reflexivity|]. intros Ht.
  cbn [no_nnn]. rewrite (IH (tight_tail _ _ Ht)), andb_true_r.
  destruct (is_nl c) eqn:Hc; [|reflexivity].
  destruct (tight_body _ _ Ht Hc) as [_ Hp].
  destruct (starts_nn p) eqn:Hs; [|reflexivity].
  destruct (starts_nn_cases _ Hs) as [r ->]. discriminate Hp.
Qed.

Lemma tight_app_no_nnn p rest :
  tight p = true -> starts_nl rest = false -> no_nnn rest = true ->
  no_nnn (p +:+ blank_line +:+ rest) = true.
Proof.
  intros Ht Hr Hn. induction p as [|c p IH].
  - change ("" +:+ blank_line +:+ rest) with (String nl (String nl rest)).
    cbn [no_nnn]. rewrite starts_nn_nl, Hr, Hn, (starts_nn_not_nl rest Hr).
    rewrite !andb_false_r. reflexivity.
  - cbn [String.append no_nnn]. rewrite (IH (tight_tail _ _ Ht)), andb_true_r.
    destruct (is_nl c) eqn:Hc; [|reflexivity].
    destruct (tight_body _ _ Ht Hc) as [Hne Hp].
    destruct (starts_nn (p +:+ blank_line +:+ rest)) eqn:Hs; [|reflexivity].
    destruct p as [|b p]; [congruence|]. cbn -[is_nl] in Hp.
    apply starts_nn_cases in Hs as [r Hs]. cbn in Hs. injection Hs as -> _.
    discriminate Hp.
Qed.

Lemma trimmed_not_nl s : trimmed s -> starts_nl s = false.
Proof.
  intros [Hh _]. destruct s as [|a s]; [reflexivity|]. cbn -[is_nl].
  destruct (is_nl a) eqn:Ha; [|reflexivity].
  apply is_nl_space in Ha. rewrite (Hh a eq_refl) in Ha. discriminate.
Qed.

Lemma join_no_nnn ps : Forall good ps -> no_nnn (join blank_line ps) = true.
Proof.
  induction 1 as [|p ps (_ & _ & Ht) Hps IH]; [reflexivity|].
  destruct ps as [|q r]; [exact (tight_no_nnn _ Ht)|].
  rewrite join_cons. apply tight_app_no_nnn; [exact Ht| |exact IH].
  apply trimmed_not_nl, join_trimmed, Hps.
Qed.

Lemma prefix_two_blank_lines a s :
  String.prefix (blank_line +:+ blank_line) (String a s) = true ->
  is_nl a = true /\ starts_nn s = true.
Proof.
  unfold is_nl. cbn -[ascii_dec]. destruct (ascii_dec nl a); [|discriminate].
  destruct s as [|b [|c s]]; cbn -[ascii_dec]; try discriminate.
  - destruct (ascii_dec nl b); discriminate.
  - unfold is_nl. destruct (ascii_dec nl b); [|discriminate].
    destruct (ascii_dec nl c); [auto|discriminate].
Qed.

Lemma no_nnn_no_empty_paragraph s :
  no_nnn s = true -> contains (blank_line +:+ blank_line) s = false.
Proof.
  induction s as [|a s IH]; [reflexivity|].
  cbn [no_nnn contains]. intros H. apply andb_prop in H as [H1 H2].
  rewrite (IH H2), orb_false_r.
  destruct (String.prefix _ _) eqn:E; [|reflexivity].
  apply prefix_two_blank_lines in E as [Ea Es]. rewrite Ea, Es in H1. discriminate.
Qed.

End StringFacts.


(** ** The response formatter *)

(** C8. The response formatter is idempotent; its result neither begins nor
    ends with a whitespace character; and the result holds no empty
    paragraph between two blank-line separators: two separators never
    follow each other in it, and cutting it at its separators yields only
    non-empty pieces (the one result with an empty piece is the empty
    text, which has no separator). *)
Theorem format_response_idempotent (s : string) :
  _format_response (_format_response s) = _format_response s /\
  (forall c, head_char (_format_response s) = Some c -> isspace c = false) /\
  (forall c, last_char (_format_response s) = Some c -> isspace c = false) /\
  contains (blank_line +:+ blank_line) (_format_response s) = false /\
  (_format_response s = "" \/
   Forall (fun p => p <> "") (split blank_line (_format_response s))).
Proof.
  destruct (format_paragraphs s) as (ps & Hps & ->).
  split; [exact (format_join _ Hps)|].
  destruct (join_trimmed _ Hps) as [Hh Hl].
  split; [exact Hh|]. split; [exact Hl|].
  split; [exact (no_nnn_no_empty_paragraph _ (join_no_nnn _ Hps))|].
  destruct ps as [|p ps]; [left; reflexivity|right].
  rewrite (split_join _ Hps) by discriminate.
  eapply Forall_impl; [exact Hps|]. intros q (Hq & _). exact Hq.
Qed.

(** ** The rule matcher *)

Section RuleMatcher.

Variable self : ChatService.

Lemma find_first {A : Type} (f : A -> bool) (before after : list A) (x : A) :
  (forall y, y ∈ before -> f y = false) -> f x = true ->
  List.find f (before ++ x :: after) = Some x.
Proof.
  induction before as [|y before IH]; intros Hb Hx; cbn.
  - rewrite Hx. reflexivity.
  - rewrite (Hb y) by constructor.
    apply IH; [|exact Hx]. intros z Hz. apply Hb. now constructor.
Qed.

Lemma find_split {A : Type} (f : A -> bool) (l : list A) (x : A) :
  List.find f l = Some x ->
  exists before after, l = before ++ x :: after /\
    (forall y, y ∈ before -> f y = false) /\ f x = true.
Proof.
  induction l as [|y l IH]; cbn; [discriminate|].
  destruct (f y) eqn:Hy.
  - intros [= ->]. exists [], l. split; [reflexivity|]. split; [|exact Hy].
    intros z Hz. inversion Hz.
  - intros H. destruct (IH H) as (before & after & -> & Hb & Hx).
    exists (y :: before), after. split; [reflexivity|]. split; [|exact Hx].
    intros z Hz. inversion Hz; subst; auto.
Qed.

Lemma find_none {A : Type} (f : A -> bool) (l : list A) :
  (forall y, y ∈ l -> f y = false) -> List.find f l = None.
Proof.
  induction l as [|y l IH]; intros H; cbn; [reflexivity|].
  rewrite (H y) by constructor. apply IH. intros z Hz. apply H. now constructor.
Qed.

Lemma find_some_exists {A : Type} (f : A -> bool) (l : list A) (y : A) :
  y ∈ l -> f y = true -> exists x, List.find f l = Some x.
Proof.
  induction 1 as [y l|y z l _ IH]; intros Hy; cbn.
  - rewrite Hy. eauto.
  - destruct (f z); eauto.
Qed.

(** What the matcher does once the text of the last message is known. *)
Lemma call_model_last (state : MessagesState) cls m kw :
  last (messages state) = Some (VMsg cls m kw) ->
  _call_model self state =
    match List.find (exact_match (lower m)) (qa_pairs self) with
    | Some p => Ok {| messages := messages state ++ [AIMessage (answer p) []] |}
    | None =>
        match related_answer self (lower m) topic_keywords with
        | Some p => Ok {| messages := messages state ++ [AIMessage (answer p) []] |}
        | None => Ok {| messages := messages state ++ [AIMessage refusal []] |}
        end
    end.
Proof. intros H. unfold _call_model. rewrite H. reflexivity. Qed.

(** The topic loop, over any list of topics. *)
Lemma related_answer_first (m : string) before topic keywords after p :
  (forall t ks, (t, ks) ∈ before ->
     existsb (keyword_match m) ks = false \/ relevant_pair self t = None) ->
  existsb (keyword_match m) keywords = true ->
  relevant_pair self topic = Some p ->
  related_answer self m (before ++ (topic, keywords) :: after) = Some p.
Proof.
  induction before as [|[t ks] before IH]; intros Hb Hk Hp; cbn.
  - rewrite Hk, Hp. reflexivity.
  - assert (IH' : related_answer self m (before ++ (topic, keywords) :: after) = Some p).
    { apply IH; [|exact Hk|exact Hp]. intros t' ks' H. apply (Hb t' ks'). now constructor. }
    destruct (Hb t ks) as [-> | ->]; [constructor|exact IH'|].
    destruct (existsb _ ks); exact IH'.
Qed.

Lemma related_answer_none (m : string) topics :
  (forall t ks kw, (t, ks) ∈ topics -> kw ∈ ks -> keyword_match m kw = false) ->
  related_answer self m topics = None.
Proof.
  induction topics as [|[t ks] topics IH]; intros H; cbn; [reflexivity|].
  assert (E : existsb (keyword_match m) ks = false).
  { apply not_true_is_false. intros E. apply existsb_exists in E.
    destruct E as (kw & Hin & Hkw). apply list_elem_of_In in Hin.
    rewrite (H t ks kw) in Hkw; [discriminate|constructor|exact Hin]. }
  rewrite E. apply IH. intros t' ks' kw H1 H2. apply (H t' ks' kw); [now constructor|exact H2].
Qed.

End RuleMatcher.

(** C3. Whenever the case-folded text of the inbound message contains the
    case-folded question of some pair of the table, the matcher replies
    with the answer of the first such pair in table order; no condition on
    the keyword table enters, so the exact match comes before any keyword
    match. *)
Theorem exact_match_answer (self : ChatService) (state : MessagesState)
    (cls : message_class) (m : string) (kw : dict) :
  last (messages state) = Some (VMsg cls m kw) ->
  (exists q, q ∈ qa_pairs self /\ contains (lower (question q)) (lower m) = true) ->
  exists before p after,
    qa_pairs self = before ++ p :: after /\
    (forall q, q ∈ before -> contains (lower (question q)) (lower m) = false) /\
    contains (lower (question p)) (lower m) = true /\
    _call_model self state =
      Ok {| messages := messages state ++ [AIMessage (answer p) []] |}.
Proof.
  intros Hlast (q & Hq & Hm).
  destruct (find_some_exists (exact_match (lower m)) _ q Hq Hm) as [p Hp].
  destruct (find_split _ _ _ Hp) as (before & after & E & Hb & Hx).
  exists before, p, after. repeat split; try assumption.
  rewrite (call_model_last self state cls m kw Hlast), Hp. reflexivity.
Qed.

Lemma exact_match_answer_witness :
  exists before p after,
    qa_pairs refund_only = before ++ p :: after /\
    (forall q, q ∈ before ->
       contains (lower (question q)) (lower "Hi! What is your REFUND policy?") = false) /\
    contains (lower (question p)) (lower "Hi! What is your REFUND policy?") = true /\
    _call_model refund_only (ask "Hi! What is your REFUND policy?") =
      Ok {| messages := messages (ask "Hi! What is your REFUND policy?")
                        ++ [AIMessage (answer p) []] |}.
Proof.
  apply (exact_match_answer refund_only (ask "Hi! What is your REFUND policy?")
           Human "Hi! What is your REFUND policy?" []).
  - reflexivity.
  - exists {| question := "What is your refund policy?";
              answer := "Refunds within 30 days." |}.
    split; [constructor|reflexivity].
Defined.

(** C4, as stated, fails.  With a table whose only question is about the
    refund policy, the message "what time can i return it" matches no
    question exactly; its first keyword topic is "business hours", for
    which the table has no pair, and the matcher replies with the answer of
    the refund pair, found through the later topic "refund policy".  The
    message "what time is it" matches a keyword of "business hours" only,
    and gets the refusal. *)
Lemma keyword_rule_literal_fails :
  List.find (exact_match (lower "what time can i return it")) (qa_pairs refund_only)
    = None /\
  first_keyword_topic (lower "what time can i return it")
    = Some ("business hours",
            ["hour"; "open"; "close"; "time"; "operating"; "when do you"]) /\
  relevant_pair refund_only "business hours" = None /\
  _call_model refund_only (ask "what time can i return it")
    = Ok {| messages := [HumanMessage "what time can i return it" [];
                         AIMessage "Refunds within 30 days." []] |} /\
  ~ keyword_rule_literal refund_only (ask "what time can i return it")
      "what time can i return it" /\
  first_keyword_topic (lower "what time is it")
    = Some ("business hours",
            ["hour"; "open"; "close"; "time"; "operating"; "when do you"]) /\
  _call_model refund_only (ask "what time is it")
    = Ok {| messages := [HumanMessage "what time is it" [];
                         AIMessage refusal []] |} /\
  ~ keyword_rule_literal refund_only (ask "what time is it") "what time is it".
Proof.
  repeat split; try reflexivity.
  - intros H. destruct (H eq_refl _ _ eq_refl) as (p & Hp & _). discriminate Hp.
  - intros H. destruct (H eq_refl _ _ eq_refl) as (p & Hp & _). discriminate Hp.
Qed.

(** C4, amended. When no question matches exactly, the matcher replies with
    the answer of the first pair (table order) whose case-folded question
    contains the label of the first topic, in declared order, that has both
    a matching keyword and such a pair: every topic declared earlier either
    has no keyword matching the message or has no pair for its label. *)
Theorem keyword_match_answer (self : ChatService) (state : MessagesState)
    (cls : message_class) (m : string) (kw : dict)
    (earlier later : list (string * list string))
    (topic : string) (keywords : list string)
    (before after : list QAPair) (p : QAPair) :
  last (messages state) = Some (VMsg cls m kw) ->
  (forall q, q ∈ qa_pairs self -> contains (lower (question q)) (lower m) = false) ->
  topic_keywords = earlier ++ (topic, keywords) :: later ->
  (forall t ks, (t, ks) ∈ earlier ->
     (forall k, k ∈ ks -> keyword_match (lower m) k = false) \/
     (forall q, q ∈ qa_pairs self -> contains t (lower (question q)) = false)) ->
  (exists k, k ∈ keywords /\ keyword_match (lower m) k = true) ->
  qa_pairs self = before ++ p :: after ->
  (forall q, q ∈ before -> contains topic (lower (question q)) = false) ->
  contains topic (lower (question p)) = true ->
  _call_model self state =
    Ok {| messages := messages state ++ [AIMessage (answer p) []] |}.
Proof.
  intros Hlast Hexact Htopics Hearlier (k & Hk & Hkm) Hqa Hbefore Hp.
  rewrite (call_model_last self state cls m kw Hlast).
  rewrite (find_none (exact_match (lower m)) _ Hexact), Htopics.
  rewrite (related_answer_first self (lower m) earlier topic keywords later p);
    [reflexivity| | |].
  - intros t ks Hin. destruct (Hearlier t ks Hin) as [Hno|Hno].
    + left. apply not_true_is_false. intros E. apply existsb_exists in E.
      destruct E as (k' & Hin' & Hk'). apply list_elem_of_In in Hin'.
      rewrite (Hno k' Hin') in Hk'. discriminate.
    + right. unfold relevant_pair. apply find_none. exact Hno.
  - apply existsb_exists. exists k. split; [apply list_elem_of_In, Hk|exact Hkm].
  - unfold relevant_pair. rewrite Hqa. apply find_first; assumption.
Qed.

Ltac elem_cases H :=
  repeat (apply elem_of_cons in H as [H|H]);
  try (apply elem_of_nil in H; destruct H).

Lemma keyword_match_answer_witness :
  _call_model refund_only (ask "what time can i return it") =
    Ok {| messages := messages (ask "what time can i return it")
                      ++ [AIMessage "Refunds within 30 days." []] |}.
Proof.
  apply (keyword_match_answer refund_only (ask "what time can i return it")
           Human "what time can i return it" []
           (firstn 4 topic_keywords) []
           "refund policy"
           ["refund"; "return"; "money back"; "guarantee"; "cancel"; "get money back"]
           [] [] {| question := "What is your refund policy?";
                    answer := "Refunds within 30 days." |}).
  - reflexivity.
  - intros q Hq. elem_cases Hq. subst q. reflexivity.
  - reflexivity.
  - intros t ks Hin. cbn in Hin. elem_cases Hin; injection Hin as -> ->.
    + right. intros q Hq. elem_cases Hq. subst q. reflexivity.
    + left. intros k Hk. elem_cases Hk; subst k; reflexivity.
    + left. intros k Hk. elem_cases Hk; subst k; reflexivity.
    + left. intros k Hk. elem_cases Hk; subst k; reflexivity.
  - exists "return". split; [|reflexivity]. do 1 constructor. constructor.
  - reflexivity.
  - intros q Hq. elem_cases Hq.
  - reflexivity.
Defined.

(** C7. A message that contains no question of the table and matches no
    keyword of any topic gets exactly the refusal text. *)
Theorem no_match_refusal (self : ChatService) (state : MessagesState)
    (cls : message_class) (m : string) (kw : dict) :
  last (messages state) = Some (VMsg cls m kw) ->
  (forall q, q ∈ qa_pairs self -> contains (lower (question q)) (lower m) = false) ->
  (forall topic keywords k,
     (topic, keywords) ∈ topic_keywords -> k ∈ keywords ->
     contains (" " +:+ k +:+ " ") (" " +:+ lower m +:+ " ") = false) ->
  _call_model self state =
    Ok {| messages :=
            messages state ++
            [AIMessage "I can only answer questions about our business operations." []] |}.
Proof.
  intros Hlast Hexact Hkw.
  rewrite (call_model_last self state cls m kw Hlast).
  rewrite (find_none (exact_match (lower m)) _ Hexact).
  rewrite (related_answer_none self (lower m) topic_keywords Hkw). reflexivity.
Qed.

Lemma no_match_refusal_witness :
  _call_model refund_only (ask "Tell me a joke") =
    Ok {| messages :=
            messages (ask "Tell me a joke") ++
            [AIMessage "I can only answer questions about our business operations." []] |}.
Proof.
  apply (no_match_refusal refund_only (ask "Tell me a joke") Human "Tell me a joke" []).
  - reflexivity.
  - intros q Hq. elem_cases Hq. subst q. reflexivity.
  - intros topic keywords k Hin Hk. unfold topic_keywords in Hin.
    elem_cases Hin; injection Hin as -> ->; elem_cases Hk; subst k; reflexivity.
Defined.

(** C9. On a state whose message list is non-empty (a list of message
    objects), the matcher returns the input list with exactly one AI
    message appended: the list grows by one and every earlier message stays
    at its position. *)
Theorem call_model_appends_one (self : ChatService) (state : MessagesState) :
  messages state <> [] ->
  Forall (fun obj => isinstance_BaseMessage obj = true) (messages state) ->
  exists out reply,
    _call_model self state = Ok out /\
    messages out = messages state ++ [AIMessage reply []] /\
    length (messages out) = S (length (messages state)) /\
    (forall i obj, messages state !! i = Some obj -> messages out !! i = Some obj).
Proof.
  intros Hne Hall.
  destruct (last (messages state)) as [obj|] eqn:Hlast;
    [|apply last_None in Hlast; contradiction].
  assert (Hobj : isinstance_BaseMessage obj = true).
  { rewrite Forall_forall in Hall. apply Hall.
    apply last_Some in Hlast as [l' ->]. apply elem_of_app. right. constructor. }
  destruct obj as [| | | | | |cls m kw]; try discriminate.
  assert (exists reply, _call_model self state =
            Ok {| messages := messages state ++ [AIMessage reply []] |}) as [reply E].
  { rewrite (call_model_last self state cls m kw Hlast).
    destruct (List.find _ _); [eauto|]. destruct (related_answer _ _ _); eauto. }
  exists {| messages := messages state ++ [AIMessage reply []] |}, reply.
  split; [exact E|]. split; [reflexivity|]. cbn [messages]. split.
  - rewrite length_app. cbn. lia.
  - intros i obj Hi. apply lookup_app_l_Some. exact Hi.
Qed.

Lemma call_model_appends_one_witness :
  exists out reply,
    _call_model refund_only (ask "what time can i return it") = Ok out /\
    messages out = messages (ask "what time can i return it") ++ [AIMessage reply []] /\
    length (messages out) = S (length (messages (ask "what time can i return it"))) /\
    (forall i obj, messages (ask "what time can i return it") !! i = Some obj ->
                   messages out !! i = Some obj).
Proof.
  apply (call_model_appends_one refund_only (ask "what time can i return it")).
  - discriminate.
  - repeat constructor.
Defined.

(** ** The checkpoint store *)

Section Codec.

Lemma map_fixed {A : Type} (f : A -> A) (P : A -> bool) (l : list A) :
  Forall (fun x => P x = true -> f x = x) l ->
  forallb P l = true -> map f l = l.
Proof.
  induction 1 as [|x l Hx _ IH]; cbn; [reflexivity|].
  intros H. apply andb_prop in H as [H1 H2]. rewrite (Hx H1), (IH H2). reflexivity.
Qed.

Lemma entries_fixed (entries : dict) :
  Forall (fun kv => is_json kv.2 = true -> json_dumps kv.2 = kv.2) entries ->
  forallb (fun kv => is_json kv.2) entries = true ->
  json_dumps_entries entries = entries.
Proof.
  induction 1 as [|[k v] l Hx _ IH]; cbn; [reflexivity|].
  intros H. apply andb_prop in H as [H1 H2]. cbn in Hx.
  rewrite (Hx H1). unfold json_dumps_entries in IH. rewrite (IH H2). reflexivity.
Qed.

(** The encoder leaves JSON data as it is. *)
Lemma json_dumps_json (v : value) : is_json v = true -> json_dumps v = v.
Proof.
  induction v as [| | | |items IH|entries IH|cls content kw IH]
    using value_nested_ind; cbn [is_json json_dumps]; intros H;
    try reflexivity; try discriminate.
  - f_equal. exact (map_fixed json_dumps is_json items IH H).
  - f_equal. exact (entries_fixed entries IH H).
Qed.

Lemma json_dumps_entries_json (entries : dict) :
  forallb (fun kv => is_json kv.2) entries = true ->
  json_dumps_entries entries = entries.
Proof.
  intros H. apply entries_fixed; [|exact H].
  apply Forall_forall. intros kv _. apply json_dumps_json.
Qed.

(** What [json.dumps] writes for a message object is what it writes for
    the dictionary [MessageEncoder.default] gives. *)
Lemma json_dumps_default (obj d : value) :
  MessageEncoder_default obj = Ok d -> json_dumps obj = json_dumps d.
Proof. destruct obj; cbn; try discriminate. intros [= <-]. reflexivity. Qed.

(** Decoding an encoded human or assistant message. *)
Lemma deserialize_message (m : value) :
  is_human_or_ai m = true ->
  _deserialize_messages (json_dumps m) = Ok (read_back m).
Proof.
  destruct m as [| | | | | |[| |] content kw]; try discriminate; reflexivity.
Qed.

Lemma deserialize_message_list (msgs : list value) :
  Forall (fun m => is_human_or_ai m = true) msgs ->
  mapM _deserialize_messages (map json_dumps msgs) = Ok (map read_back msgs).
Proof.
  induction 1 as [|m msgs Hm _ IH]; [reflexivity|].
  cbn [map mapM]. rewrite (deserialize_message m Hm).
  cbn [mbind result_bind]. rewrite IH. reflexivity.
Qed.

Lemma deserialize_session_state (msgs : list value) (language : string) :
  Forall (fun m => is_human_or_ai m = true) msgs ->
  _deserialize_messages (json_dumps (session_state msgs language)) =
    Ok (session_state (map read_back msgs) language).
Proof.
  intros H. unfold session_state.
  cbn [json_dumps map fst snd _deserialize_messages dict_get String.eqb Ascii.eqb
       Bool.eqb mapM].
  rewrite (deserialize_message_list msgs H). reflexivity.
Qed.

Lemma read_back_same (m : value) :
  is_human_or_ai m = true -> same_kind_and_content m (read_back m).
Proof.
  destruct m as [| | | | | |cls content kw]; try discriminate.
  intros _. repeat split.
Qed.

Lemma read_back_json (m : value) : json_kwargs m = true -> read_back m = m.
Proof.
  destruct m as [| | | | | |cls content kw]; try discriminate.
  cbn. intros H. rewrite (json_dumps_entries_json kw H). reflexivity.
Qed.

End Codec.

Section Store.

Variable w : world.
Variable session_id : string.
Hypothesis backend_answers : s3_fault w (_get_s3_key session_id) = None.

(** [put] writes the checkpoint record under the key of the session. *)
Lemma put_session_state msgs language metadata new_versions :
  exists w',
    put w session_id (session_state msgs language) metadata new_versions = Ok w' /\
    s3_fault w' = s3_fault w /\ clock w' = clock w /\ ticks w' = S (ticks w) /\
    objects w' =
      <[_get_s3_key session_id :=
          checkpoint_record msgs language (or_empty_dict metadata)
            (or_empty_dict new_versions) (clock w (ticks w))]> (objects w).
Proof.
  unfold put, datetime_now, put_object. cbn [s3_fault]. rewrite backend_answers.
  eexists. split; [reflexivity|]. repeat split.
Qed.

End Store.

(** Reading a stored checkpoint gives the saved state back. *)
Lemma get_stored w thread_id msgs language metadata new_versions last_updated :
  stored_checkpoint w thread_id msgs language metadata new_versions last_updated ->
  get w thread_id = Ok (session_state (map read_back msgs) language).
Proof.
  intros (Hf & Ho & Hm). unfold get, get_object. rewrite Hf, Ho.
  unfold checkpoint_record.
  cbn [json_dumps_entries map fst snd dict_get String.eqb Ascii.eqb Bool.eqb].
  exact (deserialize_session_state msgs language Hm).
Qed.

(** What [_save_checkpoint] leaves in the bucket is a stored checkpoint. *)
Lemma save_checkpoint_stored w session_id msgs language :
  s3_fault w (_get_s3_key session_id) = None ->
  Forall (fun m => is_human_or_ai m = true) msgs ->
  exists w',
    _save_checkpoint w session_id msgs language = Ok w' /\
    stored_checkpoint w' session_id msgs language
      (VDict [("timestamp", VStr (clock w (ticks w))); ("language", VStr language)])
      (VDict [("messages", VInt (Z.of_nat (length msgs)))])
      (clock w (S (ticks w))).
Proof.
  intros Hf Hm. unfold _save_checkpoint.
  destruct (datetime_now w) as [now w1] eqn:E. unfold datetime_now in E.
  injection E as <- <-.
  edestruct (put_session_state
               {| objects := objects w; s3_fault := s3_fault w;
                  clock := clock w; ticks := S (ticks w) |}
               session_id Hf msgs language) as (w' & Hput & Hf' & _ & _ & Ho).
  exists w'. split; [exact Hput|]. unfold stored_checkpoint.
  rewrite Hf', Ho. cbn [s3_fault objects clock ticks]. split; [exact Hf|].
  split; [|exact Hm]. rewrite lookup_insert_eq. reflexivity.
Qed.

(** C5. A list of human and assistant messages encoded by the tagged-union
    scheme decodes to messages of the same classes with the same contents,
    in the same order, and to the very same list when the
    [additional_kwargs] of the messages are JSON data; so does the state
    that carries the list when it is written by [put] and read by [get]. *)
Theorem put_get_round_trip (msgs : list value) :
  Forall (fun m => is_human_or_ai m = true) msgs ->
  exists msgs',
    _deserialize_messages (json_dumps (VList msgs)) = Ok (VList msgs') /\
    Forall2 same_kind_and_content msgs msgs' /\
    (Forall (fun m => json_kwargs m = true) msgs -> msgs' = msgs) /\
    forall w session_id language metadata new_versions,
      s3_fault w (_get_s3_key session_id) = None ->
      exists w',
        put w session_id (session_state msgs language) metadata new_versions = Ok w' /\
        get w' session_id = Ok (session_state msgs' language).
Proof.
  intros Hm. exists (map read_back msgs). split; [|split; [|split]].
  - cbn [json_dumps _deserialize_messages].
    rewrite (deserialize_message_list msgs Hm). reflexivity.
  - induction Hm as [|m msgs Hm _ IH]; cbn; constructor; [|exact IH].
    apply read_back_same, Hm.
  - intros Hj. induction Hj as [|m msgs Hj _ IH]; [reflexivity|].
    cbn. rewrite (read_back_json m Hj). f_equal. apply IH.
    inversion Hm; assumption.
  - intros w session_id language metadata new_versions Hf.
    destruct (put_session_state w session_id Hf msgs language metadata new_versions)
      as (w' & Hput & Hf' & _ & _ & Ho).
    exists w'. split; [exact Hput|].
    apply (get_stored w' session_id msgs language (or_empty_dict metadata)
             (or_empty_dict new_versions) (clock w (ticks w))).
    unfold stored_checkpoint. rewrite Hf', Ho, lookup_insert_eq. auto.
Qed.

Lemma put_get_round_trip_witness :
  exists msgs',
    _deserialize_messages
      (json_dumps (VList [HumanMessage "hola" []; AIMessage "buenas" [("k", VInt 3)]]))
      = Ok (VList msgs') /\
    Forall2 same_kind_and_content
      [HumanMessage "hola" []; AIMessage "buenas" [("k", VInt 3)]] msgs' /\
    (Forall (fun m => json_kwargs m = true)
       [HumanMessage "hola" []; AIMessage "buenas" [("k", VInt 3)]] ->
     msgs' = [HumanMessage "hola" []; AIMessage "buenas" [("k", VInt 3)]]) /\
    forall w session_id language metadata new_versions,
      s3_fault w (_get_s3_key session_id) = None ->
      exists w',
        put w session_id
          (session_state [HumanMessage "hola" []; AIMessage "buenas" [("k", VInt 3)]]
             language) metadata new_versions = Ok w' /\
        get w' session_id = Ok (session_state msgs' language).
Proof.
  apply (put_get_round_trip [HumanMessage "hola" []; AIMessage "buenas" [("k", VInt 3)]]).
  repeat constructor.
Defined.

(** ** The history reconstructor *)

Section Reconstruction.

(** Induction on a list, two entries at a time. *)
Lemma list_pair_ind {A : Type} (P : list A -> Prop) :
  P [] -> (forall x, P [x]) -> (forall x y l, P l -> P (x :: y :: l)) ->
  forall l, P l.
Proof.
  intros H0 H1 H2.
  assert (H : forall l, P l /\ forall x, P (x :: l)).
  { induction l as [|y l [IH1 IH2]]; split; auto. }
  intros l. apply H.
Qed.

Lemma range_step (fuel start stop step : nat) :
  start < stop ->
  py_range_from (S fuel) start stop step
    = start :: py_range_from fuel (start + step) stop step.
Proof. intros H. cbn. destruct (decide (start < stop)); [reflexivity|lia]. Qed.

Lemma range_done (fuel start stop step : nat) :
  stop <= start -> py_range_from fuel start stop step = [].
Proof.
  intros H. destruct fuel; [reflexivity|]. cbn.
  destruct (decide (start < stop)); [lia|reflexivity].
Qed.

Lemma content_of_message (obj : value) :
  isinstance_BaseMessage obj = true ->
  getattr_content obj = Ok (message_content obj).
Proof. destruct obj; try discriminate; reflexivity. Qed.

Lemma message_truthy (obj : value) :
  isinstance_BaseMessage obj = true -> truthy obj = true.
Proof. destruct obj; try discriminate; reflexivity. Qed.

Lemma human_is_message (obj : value) :
  isinstance_HumanMessage obj = true -> isinstance_BaseMessage obj = true.
Proof. destruct obj; try discriminate; reflexivity. Qed.

(** One turn of the loop, at the stride that begins after [done]. *)
Lemma history_step_last (done : list value) (h : value) transcript w :
  history_step (VList (done ++ [h])) (length done) (transcript, w) =
    Ok (transcript ++ (paired_transcript_spec [h] w).1,
        (paired_transcript_spec [h] w).2).
Proof.
  unfold history_step. cbn [py_getitem py_len]. unfold list_getitem.
  rewrite (list_lookup_middle done [] h (length done) eq_refl).
  cbn [mbind result_bind paired_transcript_spec].
  destruct (isinstance_HumanMessage h) eqn:Hh; cbn [negb].
  - rewrite length_app. cbn [length].
    destruct (decide (length done + 1 < length done + 1)); [lia|].
    cbn [mbind result_bind].
    rewrite (content_of_message h (human_is_message h Hh)). reflexivity.
  - cbn. rewrite app_nil_r. reflexivity.
Qed.

Lemma history_step_pair (done rest : list value) (h a : value) transcript w :
  isinstance_BaseMessage a = true ->
  history_step (VList (done ++ h :: a :: rest)) (length done) (transcript, w) =
    Ok (transcript ++ (paired_transcript_spec [h; a] w).1,
        (paired_transcript_spec [h; a] w).2).
Proof.
  intros Ha. unfold history_step. cbn [py_getitem py_len]. unfold list_getitem.
  rewrite (list_lookup_middle done (a :: rest) h (length done) eq_refl).
  cbn [mbind result_bind paired_transcript_spec].
  destruct (isinstance_HumanMessage h) eqn:Hh; cbn [negb].
  - rewrite length_app. cbn [length].
    destruct (decide (length done + 1 < length done + S (S (length rest)))); [|lia].
    replace (done ++ h :: a :: rest) with ((done ++ [h]) ++ a :: rest)
      by (rewrite <- app_assoc; reflexivity).
    rewrite (list_lookup_middle (done ++ [h]) rest a (length done + 1))
      by (rewrite length_app; reflexivity).
    cbn [mbind result_bind].
    rewrite (content_of_message h (human_is_message h Hh)).
    cbn [mbind result_bind datetime_now fst snd].
    rewrite (message_truthy a Ha), (content_of_message a Ha).
    cbn [mbind result_bind]. rewrite <- app_assoc. reflexivity.
  - cbn. rewrite app_nil_r. reflexivity.
Qed.

Lemma spec_pair_then_rest (h a : value) (rest : list value) w :
  paired_transcript_spec (h :: a :: rest) w =
    ((paired_transcript_spec [h; a] w).1
       ++ (paired_transcript_spec rest (paired_transcript_spec [h; a] w).2).1,
     (paired_transcript_spec rest (paired_transcript_spec [h; a] w).2).2).
Proof.
  cbn [paired_transcript_spec].
  destruct (isinstance_HumanMessage h); cbn [datetime_now fst snd].
  - destruct (paired_transcript_spec rest _) as [tr w2]. reflexivity.
  - destruct (paired_transcript_spec rest w) as [tr w2]. reflexivity.
Qed.

(** The loop from the stride after [done] on computes the transcript of
    the remaining entries. *)
Lemma loop_from (rest : list value) :
  Forall (fun obj => isinstance_BaseMessage obj = true) rest ->
  forall done fuel transcript w,
    length rest <= 2 * fuel ->
    for_each (history_step (VList (done ++ rest)))
      (py_range_from fuel (length done) (length (done ++ rest)) 2) (transcript, w)
    = Ok (transcript ++ (paired_transcript_spec rest w).1,
          (paired_transcript_spec rest w).2).
Proof.
  induction rest as [|h|h a rest IH] using list_pair_ind;
    intros Hall done fuel transcript w Hfuel.
  - rewrite range_done by (rewrite app_nil_r; lia). cbn. rewrite app_nil_r. reflexivity.
  - destruct fuel as [|fuel]; [cbn in Hfuel; lia|].
    rewrite range_step by (rewrite length_app; cbn; lia).
    rewrite range_done by (rewrite length_app; cbn; lia).
    cbn [for_each]. rewrite history_step_last. reflexivity.
  - destruct fuel as [|fuel]; [cbn in Hfuel; lia|].
    inversion Hall as [|? ? _ Hall']; subst. inversion Hall' as [|? ? Ha Hrest]; subst.
    rewrite range_step by (rewrite length_app; cbn; lia).
    cbn [for_each]. rewrite (history_step_pair done rest h a transcript w Ha).
    cbn [mbind result_bind].
    replace (done ++ h :: a :: rest) with ((done ++ [h; a]) ++ rest)
      by (rewrite <- app_assoc; reflexivity).
    replace (length done + 2) with (length (done ++ [h; a]))
      by (rewrite length_app; reflexivity).
    rewrite (IH Hrest) by (cbn in Hfuel; lia).
    rewrite (spec_pair_then_rest h a rest w). cbn [fst snd].
    rewrite <- app_assoc. reflexivity.
Qed.

(** The loop over the whole list. *)
Lemma reconstruct_messages (msg_list : list value) (w : world) :
  Forall (fun obj => isinstance_BaseMessage obj = true) msg_list ->
  reconstruct (VList msg_list) w = Ok (paired_transcript_spec msg_list w).
Proof.
  intros Hall. unfold reconstruct, py_range. cbn [py_len mbind result_bind].
  pose proof (loop_from msg_list Hall [] (length msg_list) [] w) as H.
  cbn [app length] in H. rewrite H by lia.
  destruct (paired_transcript_spec msg_list w). reflexivity.
Qed.

End Reconstruction.

(** C6. On every stored list of message objects the reconstructor computes
    the transcript of the specification: the list is walked in strides of
    two; the entry at an even index gives a human message, and its stride
    is skipped when it is not a human message; the entry at the following
    odd index, when present, gives the paired assistant message; both
    messages of a pair carry the one clock reading taken for their
    stride. *)
Theorem reconstruct_pairs (msg_list : list value) (w : world) :
  Forall (fun obj => isinstance_BaseMessage obj = true) msg_list ->
  reconstruct (VList msg_list) w = Ok (paired_transcript_spec msg_list w).
Proof.
  intros Hall. unfold reconstruct, py_range. cbn [py_len mbind result_bind].
  pose proof (loop_from msg_list Hall [] (length msg_list) [] w) as H.
  cbn [app length] in H. rewrite H by lia.
  destruct (paired_transcript_spec msg_list w). reflexivity.
Qed.

Lemma reconstruct_pairs_witness :
  reconstruct
    (VList [HumanMessage "hola" []; AIMessage "buenas" []; HumanMessage "adios" []])
    quiet_world
  = Ok (paired_transcript_spec
          [HumanMessage "hola" []; AIMessage "buenas" []; HumanMessage "adios" []]
          quiet_world).
Proof.
  apply (reconstruct_pairs
           [HumanMessage "hola" []; AIMessage "buenas" []; HumanMessage "adios" []]
           quiet_world).
  repeat constructor.
Defined.

Section StoredHistory.

Lemma read_back_messages (msgs : list value) :
  Forall (fun m => is_human_or_ai m = true) msgs ->
  Forall (fun obj => isinstance_BaseMessage obj = true) (map read_back msgs).
Proof.
  induction 1 as [|m msgs Hm _ IH]; cbn; constructor; [|exact IH].
  destruct m; try discriminate; reflexivity.
Qed.

(** The history of a stored checkpoint: the transcript of the messages as
    read back, and the language "English" whatever the record holds. *)
Lemma stored_history w thread_id msgs language metadata new_versions last_updated :
  stored_checkpoint w thread_id msgs language metadata new_versions last_updated ->
  get_chat_history w thread_id =
    Ok ({| History.thread_id := thread_id;
           History.messages := (paired_transcript_spec (map read_back msgs) w).1;
           History.language := "English" |},
        (paired_transcript_spec (map read_back msgs) w).2).
Proof.
  intros Hs. unfold get_chat_history.
  rewrite (get_stored _ _ _ _ _ _ _ Hs). destruct Hs as (_ & _ & Hm).
  unfold session_state. cbn [mbind result_bind truthy negb orb dict_get
    String.eqb Ascii.eqb Bool.eqb is_Some_b dict_getitem].
  rewrite (reconstruct_messages _ w (read_back_messages msgs Hm)).
  cbn [mbind result_bind].
  destruct (paired_transcript_spec (map read_back msgs) w) as [tr w'].
  reflexivity.
Qed.

Lemma spec_role_pattern (msg_list : list value) :
  forall w, role_pattern (paired_transcript_spec msg_list w).1.
Proof.
  induction msg_list as [|h|h a rest IH] using list_pair_ind; intros w.
  - intros i m Hi. destruct i; discriminate.
  - cbn [paired_transcript_spec]. destruct (isinstance_HumanMessage h).
    + intros [|i] m Hi; cbn in Hi; [|destruct i; discriminate].
      injection Hi as <-. reflexivity.
    + intros i m Hi. destruct i; discriminate.
  - cbn [paired_transcript_spec]. destruct (isinstance_HumanMessage h); [|apply IH].
    cbn [datetime_now].
    specialize (IH {| objects := objects w; s3_fault := s3_fault w;
                      clock := clock w; ticks := S (ticks w) |}).
    destruct (paired_transcript_spec rest _) as [tr w2]. cbn [fst] in *.
    intros [|[|i]] m Hi; cbn in Hi.
    + injection Hi as <-. reflexivity.
    + injection Hi as <-. reflexivity.
    + exact (IH i m Hi).
Qed.

Lemma pattern_unanswered_last (transcript : list History.Message) :
  role_pattern transcript -> human_unanswered_only_last transcript.
Proof.
  intros Hp i m Hi Hrole.
  pose proof (Hp i m Hi) as Hr. rewrite Hrole in Hr.
  destruct (Nat.even i) eqn:Hev; [|discriminate].
  destruct (transcript !! (i + 1)) as [m'|] eqn:Hn.
  - right. exists m'. split; [reflexivity|].
    rewrite (Hp _ _ Hn). replace (i + 1) with (S i) by lia.
    rewrite Nat.even_succ, <- Nat.negb_even, Hev. reflexivity.
  - left. apply lookup_ge_None in Hn. apply lookup_lt_Some in Hi. lia.
Qed.

End StoredHistory.

(** C10. For every stored checkpoint of human and assistant messages,
    [get_chat_history] returns a transcript in which every message at an
    even index has role "human" and every message at an odd index has role
    "assistant", so that a human message without an assistant message
    after it can only be the last one. *)
Theorem stored_history_role_pattern w thread_id msgs language metadata
    new_versions last_updated :
  stored_checkpoint w thread_id msgs language metadata new_versions last_updated ->
  exists response w',
    get_chat_history w thread_id = Ok (response, w') /\
    role_pattern (History.messages response) /\
    human_unanswered_only_last (History.messages response).
Proof.
  intros Hs. eexists _, _. split; [exact (stored_history _ _ _ _ _ _ _ Hs)|].
  cbn [History.messages].
  pose proof (spec_role_pattern (map read_back msgs) w) as Hp.
  split; [exact Hp|exact (pattern_unanswered_last _ Hp)].
Qed.

Lemma saved_world_stored :
  stored_checkpoint saved_world "t1" spanish_thread "Spanish"
    (VDict [("timestamp", VStr (sample_clock 0)); ("language", VStr "Spanish")])
    (VDict [("messages", VInt 2)]) (sample_clock 1).
Proof. split; [reflexivity|]. split; [reflexivity|repeat constructor]. Defined.

Lemma stored_history_role_pattern_witness :
  exists response w',
    get_chat_history saved_world "t1" = Ok (response, w') /\
    role_pattern (History.messages response) /\
    human_unanswered_only_last (History.messages response).
Proof.
  exact (stored_history_role_pattern saved_world "t1" spanish_thread "Spanish"
           _ _ _ saved_world_stored).
Defined.

(** C1, on the code: the service saves the Spanish conversation of thread
    "t1" with the language "Spanish" in the metadata of the record, and
    the history read from that record carries the language "English". *)
Theorem history_language_ignores_metadata :
  _save_checkpoint quiet_world "t1" spanish_thread "Spanish" = Ok saved_world /\
  (exists record,
     objects saved_world !! _get_s3_key "t1" = Some record /\
     metadata_language record = Some (VStr "Spanish")) /\
  exists response w',
    get_chat_history saved_world "t1" = Ok (response, w') /\
    History.language response = "English".
Proof.
  split; [reflexivity|]. split.
  - eexists. split; reflexivity.
  - eexists _, _. split; [exact (stored_history _ _ _ _ _ _ _ saved_world_stored)|].
    reflexivity.
Qed.

(** C2, as stated, fails: when the backend refuses the request with
    "AccessDenied", [get_chat_history] raises that error, no transcript is
    returned, and the route answers with status 500. *)
Lemma retrieval_error_not_swallowed :
  s3_fault denied_world (_get_s3_key "t1") = Some "AccessDenied" /\
  get_chat_history denied_world "t1" = Raise (ClientError "AccessDenied") /\
  main.get_chat_history denied_world "t1" = main.HttpError 500 /\
  ~ swallowed_into_empty denied_world "t1".
Proof.
  repeat split. intros (response & w' & H & _). discriminate H.
Qed.

(** C2, amended. When the backend fails with a retrieval error other than
    the absence of the record, [get_chat_history] raises the error again,
    and the HTTP route answers with status 500. *)
Theorem retrieval_error_propagates (w : world) (thread_id code : string) :
  s3_fault w (_get_s3_key thread_id) = Some code ->
  code <> "NoSuchKey" ->
  get_chat_history w thread_id = Raise (ClientError code) /\
  main.get_chat_history w thread_id = main.HttpError 500.
Proof.
  intros Hf Hc.
  assert (E : get_chat_history w thread_id = Raise (ClientError code)).
  { unfold get_chat_history, get, get_object. rewrite Hf.
    apply String.eqb_neq in Hc. rewrite Hc. reflexivity. }
  split; [exact E|]. unfold main.get_chat_history. rewrite E. reflexivity.
Qed.

Lemma retrieval_error_propagates_witness :
  get_chat_history denied_world "t1" = Raise (ClientError "AccessDenied") /\
  main.get_chat_history denied_world "t1" = main.HttpError 500.
Proof.
  apply (retrieval_error_propagates denied_world "t1" "AccessDenied").
  - reflexivity.
  - discriminate.
Defined.

(** ** More on the response formatter *)

Section FormatterMore.

#[local] Arguments String.append !_ _ / : simpl nomatch.

Lemma split_not_nil s : split blank_line s <> [].
Proof.
  destruct (split_pieces (String.length s) s (le_n _)) as (p & ps & E & _).
  rewrite E. discriminate.
Qed.

Lemma rstrip_nonspace c s : isspace c = false -> rstrip (String c s) <> "".
Proof. intros H. cbn [rstrip]. destruct (rstrip s); [rewrite H|]; discriminate. Qed.

Lemma strip_nonspace c s : isspace c = false -> strip (String c s) <> "".
Proof.
  intros H. unfold strip. cbn [lstrip]. rewrite H. apply rstrip_nonspace, H.
Qed.

Lemma format_blank s : strip s = "" -> _format_response s = "".
Proof. intros H. unfold _format_response. rewrite H. reflexivity. Qed.

Lemma format_visible s : strip s <> "" -> _format_response s <> "".
Proof.
  intros Hne. unfold _format_response.
  destruct (strip s) as [|c t] eqn:E; [congruence|].
  assert (Hc : isspace c = false).
  { destruct (strip_trimmed s) as [Hh _]. apply Hh. rewrite E. reflexivity. }
  assert (Hs : starts_nn (String c t) = false).
  { destruct t as [|b t]; [reflexivity|]. cbn -[is_nl].
    destruct (is_nl c) eqn:Hn; [|reflexivity].
    apply is_nl_space in Hn. congruence. }
  rewrite (split_keep _ _ Hs).
  destruct (split blank_line t) as [|p ps] eqn:Ep; [destruct (split_not_nil t Ep)|].
  cbn [push_char List.filter].
  pose proof (strip_nonspace c p Hc) as Hp. apply nonempty_true in Hp as Hp'.
  rewrite Hp'. cbn [map]. apply join_nonempty, Hp.
Qed.

Lemma contains_blank_line s : contains blank_line s = negb (no_nn s).
Proof.
  induction s as [|a s IH]; [reflexivity|].
  cbn [contains no_nn]. rewrite prefix_blank_line, IH.
  destruct (starts_nn (String a s)), (no_nn s); reflexivity.
Qed.

Lemma format_strip s : _format_response (strip s) = _format_response s.
Proof. unfold _format_response. rewrite strip_idempotent. reflexivity. Qed.

Lemma length_append (a b : string) :
  String.length (a +:+ b) = String.length a + String.length b.
Proof. induction a as [|c a IH]; cbn; [reflexivity|]. rewrite IH. reflexivity. Qed.

Lemma length_lstrip s : String.length (lstrip s) <= String.length s.
Proof.
  induction s as [|c s IH]; cbn; [lia|]. destruct (isspace c); cbn; lia.
Qed.

Lemma length_rstrip s : String.length (rstrip s) <= String.length s.
Proof.
  induction s as [|c s IH]; cbn; [lia|].
  destruct (rstrip s); [destruct (isspace c)|]; cbn in *; lia.
Qed.

Lemma length_strip s : String.length (strip s) <= String.length s.
Proof.
  unfold strip. pose proof (length_rstrip (lstrip s)). pose proof (length_lstrip s). lia.
Qed.

Lemma join_push c l :
  l <> [] -> join blank_line (push_char c l) = String c (join blank_line l).
Proof.
  destruct l as [|p [|q r]]; [congruence| |]; intros _; reflexivity.
Qed.

(** Joining the pieces of a text gives the text back. *)
Lemma join_split n s :
  String.length s <= n -> join blank_line (split blank_line s) = s.
Proof.
  revert s. induction n as [|n IH]; intros s Hn.
  - destruct s; [reflexivity|cbn in Hn; lia].
  - destruct s as [|a s]; [reflexivity|].
    destruct (starts_nn (String a s)) eqn:Hs.
    + destruct (starts_nn_cases _ Hs) as [r Hr]. rewrite Hr, split_cut.
      injection Hr as -> ->.
      destruct (split blank_line r) as [|p ps] eqn:E; [destruct (split_not_nil r E)|].
      rewrite join_cons, <- E, IH by (cbn in Hn; lia). reflexivity.
    + rewrite (split_keep _ _ Hs), join_push by apply split_not_nil.
      rewrite IH by (cbn in Hn; lia). reflexivity.
Qed.

Lemma length_join l : l <> [] -> String.length (join blank_line l) + 2 = weight l.
Proof.
  induction l as [|p l IH]; [congruence|]. intros _.
  destruct l as [|q r]; [cbn; lia|].
  rewrite join_cons, !length_append. cbn [weight].
  specialize (IH ltac:(discriminate)). cbn [weight] in IH. cbn [String.length blank_line].
  lia.
Qed.

Lemma weight_kept l :
  weight (map strip (List.filter (fun p => nonempty (strip p)) l)) <= weight l.
Proof.
  induction l as [|p l IH]; cbn [List.filter map weight]; [lia|].
  destruct (nonempty (strip p)); cbn [map weight];
    pose proof (length_strip p); lia.
Qed.

End FormatterMore.

(** X1. The formatter returns the empty text exactly for the texts made of
    whitespace only: a text with a visible character never loses all of
    them. *)
Theorem format_response_empty_iff (s : string) :
  _format_response s = "" <-> strip s = "".
Proof.
  split.
  - intros H. destruct (strip s) eqn:E; [reflexivity|].
    exfalso. apply (format_visible s); [rewrite E; discriminate|exact H].
  - apply format_blank.
Qed.

(** X2. A text that holds no blank line once stripped is only stripped:
    the formatter changes nothing inside a single paragraph. *)
Theorem format_response_single_paragraph (s : string) :
  contains blank_line (strip s) = false -> _format_response s = strip s.
Proof.
  intros H. rewrite contains_blank_line in H. apply negb_false_iff in H.
  destruct (strip s) as [|c t] eqn:E; [apply format_blank, E|].
  rewrite <- format_strip, E.
  assert (Hg : good (String c t)).
  { split; [discriminate|]. split; [rewrite <- E; apply strip_trimmed|].
    rewrite <- (rstrip_fixed (String c t)).
    - apply tight_rstrip, H.
    - rewrite <- E. apply strip_trimmed. }
  exact (format_join [String c t] (Forall_cons_2 _ _ _ Hg (List.Forall_nil _))).
Qed.

Lemma format_response_single_paragraph_witness :
  _format_response "  Refunds within 30 days.  " = strip "  Refunds within 30 days.  ".
Proof.
  apply (format_response_single_paragraph "  Refunds within 30 days.  ").
  reflexivity.
Defined.

(** X3. The formatter never lengthens a text. *)
Theorem format_response_length (s : string) :
  String.length (_format_response s) <= String.length s.
Proof.
  unfold _format_response.
  pose proof (length_strip s) as Hs.
  pose proof (join_split _ (strip s) (le_n _)) as Hj.
  pose proof (weight_kept (split blank_line (strip s))) as Hw.
  pose proof (length_join (split blank_line (strip s)) (split_not_nil _)) as Hl.
  rewrite Hj in Hl.
  destruct (map strip _) as [|p ps] eqn:E; [cbn; lia|].
  pose proof (length_join (p :: ps) ltac:(discriminate)). lia.
Qed.

(** ** More on the rule matcher *)

Section MatcherMore.

#[local] Arguments String.append !_ _ / : simpl nomatch.

Lemma find_elem {A : Type} (f : A -> bool) (l : list A) (x : A) :
  List.find f l = Some x -> x ∈ l /\ f x = true.
Proof.
  intros H. destruct (find_split f l x H) as (before & after & -> & _ & Hx).
  split; [|exact Hx]. apply elem_of_app. right. constructor.
Qed.

Lemma related_answer_elem (self : ChatService) (m : string) topics p :
  related_answer self m topics = Some p -> p ∈ qa_pairs self.
Proof.
  induction topics as [|[t ks] topics IH]; cbn; [discriminate|].
  destruct (existsb _ ks); [|exact IH].
  destruct (relevant_pair self t) as [q|] eqn:E; [|exact IH].
  intros [= <-]. exact (proj1 (find_elem _ _ _ E)).
Qed.

Lemma prefix_empty s : String.prefix "" s = true.
Proof. destruct s; reflexivity. Qed.

Lemma contains_empty s : contains "" s = true.
Proof. destruct s; cbn [contains]; rewrite prefix_empty; reflexivity. Qed.

End MatcherMore.

(** X4. What the rule matcher can do, on every state.  It raises only on a
    state it cannot read -- [IndexError] for an empty message list,
    [AttributeError] when the last entry is not a message object -- and
    otherwise appends one AI message whose text is the refusal or an
    answer of the table: it never replies with a text of its own making. *)
Theorem call_model_outcomes (self : ChatService) (state : MessagesState) :
  match _call_model self state with
  | Ok out =>
      exists reply,
        messages out = messages state ++ [AIMessage reply []] /\
        (reply = refusal \/ exists p, p ∈ qa_pairs self /\ reply = answer p)
  | Raise e =>
      (messages state = [] /\ e = IndexError) \/
      (exists obj, last (messages state) = Some obj /\
         isinstance_BaseMessage obj = false /\ e = AttributeError)
  end.
Proof.
  destruct (last (messages state)) as [obj|] eqn:Hlast.
  - destruct obj as [| | | | | |cls m kw];
      try (unfold _call_model; rewrite Hlast; right; eexists; repeat split).
    rewrite (call_model_last self state cls m kw Hlast).
    destruct (List.find _ _) as [p|] eqn:Ef.
    + exists (answer p). split; [reflexivity|]. right. exists p.
      split; [exact (proj1 (find_elem _ _ _ Ef))|reflexivity].
    + destruct (related_answer _ _ _) as [p|] eqn:Er.
      * exists (answer p). split; [reflexivity|]. right. exists p.
        split; [exact (related_answer_elem _ _ _ _ Er)|reflexivity].
      * exists refusal. split; [reflexivity|]. left. reflexivity.
  - unfold _call_model. rewrite Hlast. left.
    split; [apply last_None, Hlast|reflexivity].
Qed.

(** X5. A pair with an empty question matches every message exactly: with
    such a pair in the table, every message is answered by that pair or
    one before it, so the pairs after it, the keyword table and the
    refusal are never reached. *)
Theorem empty_question_shadows (self : ChatService) (state : MessagesState)
    (cls : message_class) (m : string) (kw : dict)
    (before after : list QAPair) (q : QAPair) :
  last (messages state) = Some (VMsg cls m kw) ->
  qa_pairs self = before ++ q :: after ->
  question q = "" ->
  exists p, p ∈ before ++ [q] /\
    contains (lower (question p)) (lower m) = true /\
    _call_model self state =
      Ok {| messages := messages state ++ [AIMessage (answer p) []] |}.
Proof.
  intros Hlast Hqa Hq.
  rewrite (call_model_last self state cls m kw Hlast), Hqa.
  replace (before ++ q :: after) with ((before ++ [q]) ++ after)
    by (rewrite <- app_assoc; reflexivity).
  assert (Hm : exact_match (lower m) q = true).
  { unfold exact_match. rewrite Hq. apply contains_empty. }
  destruct (find_some_exists (exact_match (lower m)) (before ++ [q]) q) as [p Hp];
    [apply elem_of_app; right; constructor|exact Hm|].
  destruct (find_split _ _ _ Hp) as (l1 & l2 & E & Hl1 & Hx).
  exists p. split; [|split; [exact Hx|]].
  - rewrite E. apply elem_of_app. right. constructor.
  - rewrite E, <- app_assoc. cbn [app].
    rewrite (find_first (exact_match (lower m)) l1 (l2 ++ after) p Hl1 Hx).
    reflexivity.
Qed.

Lemma empty_question_shadows_witness :
  exists p,
    p ∈ [] ++ [ {| question := ""; answer := "Hello!" |} ] /\
    contains (lower (question p)) (lower "anything at all") = true /\
    _call_model
      {| qa_pairs := [ {| question := ""; answer := "Hello!" |};
                       {| question := "anything"; answer := "Never given." |} ] |}
      (ask "anything at all") =
      Ok {| messages := messages (ask "anything at all")
                        ++ [AIMessage (answer p) []] |}.
Proof.
  apply (empty_question_shadows
           {| qa_pairs := [ {| question := ""; answer := "Hello!" |};
                            {| question := "anything"; answer := "Never given." |} ] |}
           (ask "anything at all") Human "anything at all" []
           [] [ {| question := "anything"; answer := "Never given." |} ]
           {| question := ""; answer := "Hello!" |});
    reflexivity.
Defined.

(** ** More on the checkpoint store *)

Section CodecMore.

Lemma mapM_result_inv {A B : Type} (f : A -> result B) (l : list A) (ys : list B) :
  mapM f l = Ok ys -> Forall2 (fun x y => f x = Ok y) l ys.
Proof.
  revert ys. induction l as [|x l IH]; intros ys; cbn [mapM].
  - intros [= <-]. constructor.
  - destruct (f x) as [y|e] eqn:Ex; cbn [mbind result_bind]; [|discriminate].
    destruct (mapM f l) as [ys'|e] eqn:El; cbn [mbind result_bind]; [|discriminate].
    intros [= <-]. constructor; [exact Ex|]. apply IH. reflexivity.
Qed.

Lemma mapM_result_id {A : Type} (f : A -> result A) (l : list A) :
  Forall (fun x => f x = Ok x) l -> mapM f l = Ok l.
Proof.
  induction 1 as [|x l Hx _ IH]; [reflexivity|].
  cbn [mapM]. rewrite Hx. cbn [mbind result_bind]. rewrite IH. reflexivity.
Qed.

Lemma forallb_map {A B : Type} (f : A -> B) (P : B -> bool) (l : list A) :
  Forall (fun x => P (f x) = true) l -> forallb P (map f l) = true.
Proof. induction 1 as [|x l Hx _ IH]; cbn; [reflexivity|]. rewrite Hx, IH. reflexivity. Qed.

(** The encoder's output holds no message object. *)
Lemma json_dumps_is_json (v : value) : is_json (json_dumps v) = true.
Proof.
  induction v as [| | | |items IH|entries IH|cls content kw IH]
    using value_nested_ind; cbn [json_dumps is_json]; try reflexivity.
  - apply forallb_map. exact IH.
  - apply (forallb_map (fun kv => (kv.1, json_dumps kv.2)) (fun kv => is_json kv.2)).
    exact IH.
  - cbn [forallb snd is_json].
    rewrite (forallb_map (fun kv => (kv.1, json_dumps kv.2)) (fun kv => is_json kv.2)
               kw IH).
    reflexivity.
Qed.

Lemma json_only_human_or_ai (v : value) : is_json v = true -> only_human_or_ai v = true.
Proof.
  induction v as [| | | |items IH|entries IH|cls content kw IH]
    using value_nested_ind; cbn [is_json only_human_or_ai]; intros H;
    try reflexivity; try discriminate.
  - induction IH as [|x l Hx _ IHl]; [reflexivity|].
    cbn in *. apply andb_prop in H as [H1 H2]. rewrite (Hx H1), (IHl H2). reflexivity.
  - induction IH as [|x l Hx _ IHl]; [reflexivity|].
    cbn in *. apply andb_prop in H as [H1 H2]. rewrite (Hx H1), (IHl H2). reflexivity.
Qed.

Lemma dict_get_json (entries : dict) (key : string) (v : value) :
  forallb (fun kv => is_json kv.2) entries = true ->
  dict_get entries key = Some v -> is_json v = true.
Proof.
  induction entries as [|[k x] entries IH]; cbn; [discriminate|].
  intros H. apply andb_prop in H as [H1 H2].
  destruct (String.eqb k key); [intros [= <-]; exact H1|apply IH, H2].
Qed.

Lemma message_of_data_human_or_ai cls (entries : dict) (v : value) :
  cls <> System ->
  forallb (fun kv => is_json kv.2) entries = true ->
  message_of_data cls entries = Ok v -> only_human_or_ai v = true.
Proof.
  intros Hcls Hj. unfold message_of_data, dict_getitem.
  destruct (dict_get entries "content") as [c|] eqn:Ec; [|discriminate].
  destruct (dict_get entries "additional_kwargs") as [k|] eqn:Ek; [|discriminate].
  cbn [mbind result_bind]. unfold new_message.
  destruct c; try discriminate. destruct k as [| | | | |kw|]; try discriminate.
  intros [= <-]. pose proof (dict_get_json _ _ _ Hj Ek) as Hk.
  apply json_only_human_or_ai in Hk. cbn [only_human_or_ai] in *. rewrite Hk.
  destruct cls; [reflexivity|reflexivity|congruence].
Qed.

Lemma generic_entries_human_or_ai (entries : dict) (out : dict) :
  Forall (fun kv => forall v, is_json kv.2 = true ->
            _deserialize_messages kv.2 = Ok v -> only_human_or_ai v = true) entries ->
  forallb (fun kv => is_json kv.2) entries = true ->
  mapM (fun kv => v ← _deserialize_messages kv.2; Ok (kv.1, v)) entries = Ok out ->
  forallb (fun kv => only_human_or_ai kv.2) out = true.
Proof.
  intros IH Hj Hm. apply mapM_result_inv in Hm.
  revert Hj. induction Hm as [|[k x] [k' y] l l' Hxy _ IHl]; [reflexivity|].
  cbn [forallb snd]. intros Hj. apply andb_prop in Hj as [H1 H2].
  inversion IH as [|? ? Hx Hl]; subst. cbn [snd fst] in *.
  destruct (_deserialize_messages x) as [y'|] eqn:Ex; cbn in Hxy; [|discriminate].
  injection Hxy as <- <-. rewrite (Hx y' H1 eq_refl), (IHl Hl H2). reflexivity.
Qed.

(** Whatever the decoder builds from JSON data holds no message object
    other than human and assistant messages. *)
Lemma deserialize_human_or_ai (data : value) :
  forall v, is_json data = true ->
    _deserialize_messages data = Ok v -> only_human_or_ai v = true.
Proof.
  induction data as [| | | |items IH|entries IH|cls content kw IH]
    using value_nested_ind; intros v Hj; cbn [_deserialize_messages];
    try (intros [= <-]; reflexivity); try discriminate Hj.
  - cbn [is_json] in Hj.
    destruct (mapM _deserialize_messages items) as [ys|] eqn:Em;
      cbn [fmap result_fmap]; [|discriminate].
    intros [= <-]. cbn [only_human_or_ai].
    apply mapM_result_inv in Em. revert Hj.
    induction Em as [|x y l l' Hxy _ IHl]; [reflexivity|].
    cbn [forallb]. intros Hj. apply andb_prop in Hj as [H1 H2].
    inversion IH as [|? ? Hx Hl]; subst.
    rewrite (Hx y H1 Hxy), (IHl Hl H2). reflexivity.
  - cbn [is_json] in Hj.
    assert (Hgen : forall r,
      VDict <$> mapM (fun kv => v ← _deserialize_messages kv.2; Ok (kv.1, v)) entries
        = Ok r -> only_human_or_ai r = true).
    { intros r. destruct (mapM _ entries) as [out|] eqn:Em;
        cbn [fmap result_fmap]; [|discriminate].
      intros [= <-]. cbn [only_human_or_ai].
      exact (generic_entries_human_or_ai entries out IH Hj Em). }
    destruct (dict_get entries "_type") as [[| | |t| | |]|]; try apply Hgen.
    destruct (String.eqb t "HumanMessage").
    + apply message_of_data_human_or_ai; [discriminate|exact Hj].
    + destruct (String.eqb t "AIMessage"); [|apply Hgen].
      apply message_of_data_human_or_ai; [discriminate|exact Hj].
Qed.

Lemma generic_entries_id (entries : dict) :
  Forall (fun kv => _deserialize_messages kv.2 = Ok kv.2) entries ->
  mapM (fun kv => v ← _deserialize_messages kv.2; Ok (kv.1, v)) entries = Ok entries.
Proof.
  intros H. apply mapM_result_id. eapply Forall_impl; [exact H|].
  intros [k x] Hx. cbn in *. rewrite Hx. reflexivity.
Qed.

(** The decoder returns data without message tags as they are. *)
Lemma deserialize_untagged (v : value) :
  untagged v = true -> _deserialize_messages v = Ok v.
Proof.
  induction v as [| | | |items IH|entries IH|cls content kw IH]
    using value_nested_ind; cbn [untagged _deserialize_messages]; intros H;
    try reflexivity.
  - rewrite mapM_result_id; [reflexivity|].
    induction IH as [|x l Hx _ IHl]; [constructor|].
    cbn in H. apply andb_prop in H as [H1 H2]. constructor; auto.
  - apply andb_prop in H as [Ht He].
    assert (Hgen :
      VDict <$> mapM (fun kv => v ← _deserialize_messages kv.2; Ok (kv.1, v)) entries
        = Ok (VDict entries)).
    { rewrite generic_entries_id; [reflexivity|]. clear Ht.
      induction IH as [|x l Hx _ IHl]; [constructor|].
      cbn in He. apply andb_prop in He as [H1 H2]. constructor; auto. }
    destruct (dict_get entries "_type") as [[| | |t| | |]|]; try exact Hgen.
    cbn [is_message_tag] in Ht. apply negb_true_iff, orb_false_elim in Ht as [-> ->].
    exact Hgen.
Qed.

(** A message object inside the [additional_kwargs] does not survive the
    encoder. *)
Lemma read_back_fixed (m : value) :
  isinstance_BaseMessage m = true -> read_back m = m -> json_kwargs m = true.
Proof.
  destruct m as [| | | | | |cls content kw]; try discriminate.
  intros _ H. cbn in *. injection H as H.
  pose proof (json_dumps_is_json (VDict kw)) as Hj. cbn [json_dumps is_json] in Hj.
  unfold json_dumps_entries in H. rewrite H in Hj. exact Hj.
Qed.

End CodecMore.

(** X6. Whatever the value, the encoder's output is JSON data: every
    message object, at any depth, has been replaced by its tagged
    dictionary.  Encoding what is already encoded changes nothing. *)
Theorem json_dumps_output_is_json (v : value) :
  is_json (json_dumps v) = true /\ json_dumps (json_dumps v) = json_dumps v.
Proof.
  split; [apply json_dumps_is_json|apply json_dumps_json, json_dumps_is_json].
Qed.

(** X7. The decoder rebuilds human and assistant messages only: whatever it
    returns for JSON data holds no message object of another class, at
    any depth. *)
Theorem deserialize_only_human_or_ai (data v : value) :
  is_json data = true ->
  _deserialize_messages data = Ok v -> only_human_or_ai v = true.
Proof. intros Hj. apply deserialize_human_or_ai, Hj. Qed.

Lemma deserialize_only_human_or_ai_witness :
  only_human_or_ai
    (VDict [("messages",
             VList [VDict [("_type", VStr "SystemMessage"); ("content", VStr "be kind");
                           ("additional_kwargs", VDict []); ("type", VStr "system")];
                    VMsg AI "ok" []])]) = true.
Proof.
  apply (deserialize_only_human_or_ai
           (json_dumps (VDict [("messages", VList [VMsg System "be kind" [];
                                                   VMsg AI "ok" []])])));
    reflexivity.
Defined.

(** X8. Data in which no dictionary carries the tag of a human or an
    assistant message come back from the decoder unchanged. *)
Theorem deserialize_untagged_identity (v : value) :
  untagged v = true -> _deserialize_messages v = Ok v.
Proof. apply deserialize_untagged. Qed.

Lemma deserialize_untagged_identity_witness :
  _deserialize_messages
    (VDict [("language", VStr "Spanish"); ("_type", VStr "SystemMessage");
            ("tags", VList [VInt 1; VNone; VDict []])])
  = Ok (VDict [("language", VStr "Spanish"); ("_type", VStr "SystemMessage");
               ("tags", VList [VInt 1; VNone; VDict []])]).
Proof.
  apply (deserialize_untagged_identity
           (VDict [("language", VStr "Spanish"); ("_type", VStr "SystemMessage");
                   ("tags", VList [VInt 1; VNone; VDict []])])).
  reflexivity.
Defined.

(** X9. For a human or assistant message, encoding and then decoding
    gives the very message back exactly when its [additional_kwargs] are
    JSON data; a message object nested in them comes back as a
    dictionary. *)
Theorem message_round_trip_iff (m : value) :
  is_human_or_ai m = true ->
  (_deserialize_messages (json_dumps m) = Ok m <-> json_kwargs m = true).
Proof.
  intros Hm. rewrite (deserialize_message m Hm). split.
  - intros [= H]. apply read_back_fixed; [|exact H].
    destruct m; try discriminate; reflexivity.
  - intros H. rewrite (read_back_json m H). reflexivity.
Qed.

Lemma message_round_trip_iff_witness :
  _deserialize_messages
    (json_dumps (HumanMessage "hola" [("quoted", AIMessage "buenas" [])]))
    = Ok (HumanMessage "hola" [("quoted", AIMessage "buenas" [])])
  <-> json_kwargs (HumanMessage "hola" [("quoted", AIMessage "buenas" [])]) = true.
Proof.
  apply (message_round_trip_iff (HumanMessage "hola" [("quoted", AIMessage "buenas" [])])).
  reflexivity.
Defined.

Section StoreMore.

#[local] Arguments String.append !_ _ / : simpl nomatch.

Lemma append_inj_r (a b s : string) : a +:+ s = b +:+ s -> a = b.
Proof.
  revert b. induction a as [|x a IH]; intros [|y b] H; [reflexivity| | |].
  - apply (f_equal String.length) in H. cbn in H. rewrite length_append in H. lia.
  - apply (f_equal String.length) in H. cbn in H. rewrite length_append in H. lia.
  - cbn in H. injection H as -> H. rewrite (IH b H). reflexivity.
Qed.

(** Two sessions never share a key. *)
Lemma get_s3_key_inj (a b : string) : _get_s3_key a = _get_s3_key b -> a = b.
Proof.
  unfold _get_s3_key. intros H. cbn in H.
  injection H as H. exact (append_inj_r a b ".json" H).
Qed.

(** What [put] does to the world. *)
Lemma put_world w session_id data metadata new_versions w' :
  put w session_id data metadata new_versions = Ok w' ->
  s3_fault w (_get_s3_key session_id) = None /\
  s3_fault w' = s3_fault w /\
  objects w' =
    <[_get_s3_key session_id :=
        json_dumps_entries
          [ ("state", data); ("metadata", or_empty_dict metadata);
            ("new_versions", or_empty_dict new_versions);
            ("last_updated", VStr (clock w (ticks w))) ]]> (objects w).
Proof.
  unfold put, datetime_now, put_object. cbn [s3_fault objects clock ticks].
  destruct (s3_fault w (_get_s3_key session_id)); [discriminate|].
  intros [= <-]. repeat split.
Qed.

(** [get] looks at the object and the fault of the session's key only. *)
Lemma get_depends_on_key w w' session_id :
  s3_fault w' (_get_s3_key session_id) = s3_fault w (_get_s3_key session_id) ->
  objects w' !! _get_s3_key session_id = objects w !! _get_s3_key session_id ->
  get w' session_id = get w session_id.
Proof. intros Hf Ho. unfold get, get_object. rewrite Hf, Ho. reflexivity. Qed.

Lemma get_absent w session_id :
  get_object w (_get_s3_key session_id) = Raise (ClientError "NoSuchKey") ->
  get w session_id = Ok VNone.
Proof. intros H. unfold get. rewrite H. reflexivity. Qed.

End StoreMore.

(** X10. A thread the store does not know gives no error: the store reads
    it as [None], the service returns the empty history with the language
    "English", and the route answers 404. *)
Theorem unknown_thread_not_found (w : world) (thread_id : string) :
  get_object w (_get_s3_key thread_id) = Raise (ClientError "NoSuchKey") ->
  get w thread_id = Ok VNone /\
  get_chat_history w thread_id = Ok (empty_history thread_id, w) /\
  main.get_chat_history w thread_id = main.HttpError 404.
Proof.
  intros H. pose proof (get_absent w thread_id H) as Hg.
  split; [exact Hg|].
  assert (E : get_chat_history w thread_id = Ok (empty_history thread_id, w)).
  { unfold get_chat_history. rewrite Hg. reflexivity. }
  split; [exact E|]. unfold main.get_chat_history. rewrite E. reflexivity.
Qed.

Lemma unknown_thread_not_found_witness :
  get quiet_world "nobody" = Ok VNone /\
  get_chat_history quiet_world "nobody" = Ok (empty_history "nobody", quiet_world) /\
  main.get_chat_history quiet_world "nobody" = main.HttpError 404.
Proof. apply (unknown_thread_not_found quiet_world "nobody"). reflexivity. Defined.

(** X11. Sessions are stored apart: a [put] for one session leaves what
    [get] returns for every other session as it was. *)
Theorem put_leaves_other_sessions (w w' : world) (session_id other : string)
    (data metadata new_versions : value) :
  put w session_id data metadata new_versions = Ok w' ->
  other <> session_id ->
  get w' other = get w other.
Proof.
  intros Hput Hne. destruct (put_world _ _ _ _ _ _ Hput) as (_ & Hf & Ho).
  apply get_depends_on_key; [rewrite Hf; reflexivity|].
  rewrite Ho. apply lookup_insert_ne. intros E. apply Hne. symmetry.
  exact (get_s3_key_inj _ _ E).
Qed.

Lemma put_leaves_other_sessions_witness :
  get (after_readings 1
         {| objects := <[_get_s3_key "t2" :=
                           json_dumps_entries
                             [("state", VInt 7); ("metadata", VDict []);
                              ("new_versions", VDict []);
                              ("last_updated", VStr (sample_clock 2))]]>
                         (objects saved_world);
            s3_fault := s3_fault saved_world; clock := clock saved_world;
            ticks := ticks saved_world |}) "t1"
  = get saved_world "t1".
Proof.
  apply (put_leaves_other_sessions saved_world _ "t2" "t1" (VInt 7) VNone VNone).
  - reflexivity.
  - discriminate.
Defined.

(** X12. The record of a session is replaced whole: after a [put] that
    succeeds, [get] returns the decoding of the data just written,
    whatever the bucket held for the session before. *)
Theorem put_then_get (w w' : world) (session_id : string)
    (data metadata new_versions : value) :
  put w session_id data metadata new_versions = Ok w' ->
  get w' session_id = _deserialize_messages (json_dumps data).
Proof.
  intros Hput. destruct (put_world _ _ _ _ _ _ Hput) as (Hn & Hf & Ho).
  unfold get, get_object. rewrite Hf, Hn, Ho, lookup_insert_eq. reflexivity.
Qed.

Lemma put_then_get_witness :
  get (after_readings 1
         {| objects := <[_get_s3_key "t1" :=
                           json_dumps_entries
                             [("state", VList [AIMessage "adios" []]);
                              ("metadata", VDict []);
                              ("new_versions", VDict []);
                              ("last_updated", VStr (sample_clock 2))]]>
                         (objects saved_world);
            s3_fault := s3_fault saved_world; clock := clock saved_world;
            ticks := ticks saved_world |}) "t1"
  = _deserialize_messages (json_dumps (VList [AIMessage "adios" []])).
Proof.
  apply (put_then_get saved_world _ "t1" (VList [AIMessage "adios" []]) VNone VNone).
  reflexivity.
Defined.

(** ** More on the history reconstructor *)

Section HistoryMore.

Lemma only_clock_read_refl w : only_clock_read w w.
Proof. unfold only_clock_read. auto. Qed.

Lemma only_clock_read_trans w1 w2 w3 :
  only_clock_read w1 w2 -> only_clock_read w2 w3 -> only_clock_read w1 w3.
Proof.
  intros (A1 & A2 & A3 & A4) (B1 & B2 & B3 & B4).
  repeat split; try congruence. lia.
Qed.

Lemma history_step_reads (msg_list : value) i tr w tr' w' :
  history_step msg_list i (tr, w) = Ok (tr', w') -> only_clock_read w w'.
Proof.
  unfold history_step.
  destruct (py_getitem msg_list i) as [h|]; cbn [mbind result_bind]; [|discriminate].
  destruct (negb (isinstance_HumanMessage h)); [intros [= _ <-]; apply only_clock_read_refl|].
  destruct (py_len msg_list) as [n|]; cbn [mbind result_bind]; [|discriminate].
  destruct (if decide (i + 1 < n) then _ else _) as [a|];
    cbn [mbind result_bind]; [|discriminate].
  cbn [datetime_now].
  destruct (getattr_content h); cbn [mbind result_bind]; [|discriminate].
  destruct (truthy a).
  - destruct (getattr_content a); cbn [mbind result_bind]; [|discriminate].
    intros [= _ <-]. repeat split. cbn. lia.
  - intros [= _ <-]. repeat split. cbn. lia.
Qed.

Lemma for_each_reads (msg_list : value) (idx : list nat) :
  forall tr w tr' w',
    for_each (history_step msg_list) idx (tr, w) = Ok (tr', w') ->
    only_clock_read w w'.
Proof.
  induction idx as [|i idx IH]; intros tr w tr' w'; cbn [for_each].
  - intros [= _ <-]. apply only_clock_read_refl.
  - destruct (history_step msg_list i (tr, w)) as [[tr1 w1]|] eqn:E;
      cbn [mbind result_bind]; [|discriminate].
    intros H. eapply only_clock_read_trans.
    + exact (history_step_reads _ _ _ _ _ _ E).
    + exact (IH _ _ _ _ H).
Qed.

Lemma get_chat_history_reads w thread_id response w' :
  get_chat_history w thread_id = Ok (response, w') ->
  only_clock_read w w' /\ History.thread_id response = thread_id.
Proof.
  unfold get_chat_history.
  destruct (get w thread_id) as [checkpoint|]; cbn [mbind result_bind]; [|discriminate].
  assert (Hempty : Ok (empty_history thread_id, w) = Ok (response, w') ->
                   only_clock_read w w' /\ History.thread_id response = thread_id).
  { intros [= <- <-]. split; [apply only_clock_read_refl|reflexivity]. }
  destruct checkpoint as [| | | | |entries|]; try exact Hempty.
  destruct (negb _ || negb _); [exact Hempty|].
  destruct (dict_getitem entries "messages") as [msg_list|];
    cbn [mbind result_bind]; [|discriminate].
  unfold reconstruct.
  destruct (py_len msg_list) as [n|]; cbn [mbind result_bind]; [|discriminate].
  destruct (for_each _ _ _) as [[tr w1]|] eqn:E; cbn [mbind result_bind]; [|discriminate].
  destruct (checkpoint_language entries); cbn [mbind result_bind]; [|discriminate].
  intros [= <- <-]. split; [|reflexivity].
  exact (for_each_reads _ _ _ _ _ _ E).
Qed.

(** The transcript of the specification, without its timestamps. *)
Lemma spec_entries (msg_list : list value) :
  forall w, map entry_of (paired_transcript_spec msg_list w).1
            = transcript_entries msg_list.
Proof.
  induction msg_list as [|h|h a rest IH] using list_pair_ind; intros w.
  - reflexivity.
  - cbn [paired_transcript_spec transcript_entries].
    destruct (isinstance_HumanMessage h); reflexivity.
  - cbn [paired_transcript_spec transcript_entries].
    destruct (isinstance_HumanMessage h); [|apply IH].
    cbn [datetime_now].
    specialize (IH {| objects := objects w; s3_fault := s3_fault w;
                      clock := clock w; ticks := S (ticks w) |}).
    destruct (paired_transcript_spec rest _) as [tr w2]. cbn [fst map] in *.
    rewrite IH. reflexivity.
Qed.

(** The readings the transcript of the specification takes. *)
Lemma spec_reads (msg_list : list value) :
  forall w,
    only_clock_read w (paired_transcript_spec msg_list w).2 /\
    stamped_between w (ticks w) (ticks (paired_transcript_spec msg_list w).2)
      (paired_transcript_spec msg_list w).1.
Proof.
  induction msg_list as [|h|h a rest IH] using list_pair_ind; intros w.
  - split; [apply only_clock_read_refl|constructor].
  - cbn [paired_transcript_spec]. destruct (isinstance_HumanMessage h).
    + cbn. split; [repeat split; cbn; lia|].
      constructor; [|constructor]. exists (ticks w). cbn. split; [lia|reflexivity].
    + split; [apply only_clock_read_refl|constructor].
  - cbn [paired_transcript_spec]. destruct (isinstance_HumanMessage h); [|apply IH].
    cbn [datetime_now].
    specialize (IH {| objects := objects w; s3_fault := s3_fault w;
                      clock := clock w; ticks := S (ticks w) |}).
    destruct (paired_transcript_spec rest _) as [tr w2]. cbn [fst snd] in *.
    destruct IH as [(I1 & I2 & I3 & I4) IH]. cbn in I1, I2, I3, I4.
    split; [repeat split; try assumption; lia|].
    constructor; [exists (ticks w); cbn; split; [lia|reflexivity]|].
    constructor; [exists (ticks w); cbn; split; [lia|reflexivity]|].
    eapply Forall_impl; [exact IH|]. cbn.
    intros m (k & Hk & Hm). exists k. split; [lia|exact Hm].
Qed.

Lemma read_back_entries (msg_list : list value) :
  transcript_entries (map read_back msg_list) = transcript_entries msg_list.
Proof.
  induction msg_list as [|h|h a rest IH] using list_pair_ind.
  - reflexivity.
  - destruct h as [| | | | | |[| |] c kw]; reflexivity.
  - cbn [map transcript_entries].
    replace (isinstance_HumanMessage (read_back h)) with (isinstance_HumanMessage h)
      by (destruct h as [| | | | | |[| |] c kw]; reflexivity).
    replace (message_content (read_back h)) with (message_content h)
      by (destruct h; reflexivity).
    replace (message_content (read_back a)) with (message_content a)
      by (destruct a; reflexivity).
    cbn [map] in IH. rewrite IH. reflexivity.
Qed.

Lemma entries_sublist (msg_list : list value) :
  sublist (map fst (transcript_entries msg_list)) (map message_content msg_list).
Proof.
  induction msg_list as [|h|h a rest IH] using list_pair_ind.
  - constructor.
  - cbn [transcript_entries]. destruct (isinstance_HumanMessage h); cbn.
    + repeat constructor.
    + repeat constructor.
  - cbn [transcript_entries]. destruct (isinstance_HumanMessage h); cbn [map fst].
    + apply sublist_skip, sublist_skip, IH.
    + apply sublist_cons, sublist_cons, IH.
Qed.

Lemma entries_complete (msg_list : list value) :
  strides_start_human msg_list = true ->
  map fst (transcript_entries msg_list) = map message_content msg_list.
Proof.
  induction msg_list as [|h|h a rest IH] using list_pair_ind.
  - reflexivity.
  - cbn [strides_start_human transcript_entries]. intros ->. reflexivity.
  - cbn [strides_start_human transcript_entries]. intros H.
    apply andb_prop in H as [-> H]. cbn [map fst]. rewrite (IH H). reflexivity.
Qed.

Lemma entries_no_human (msg_list : list value) :
  Forall (fun m => isinstance_HumanMessage m = false) msg_list ->
  transcript_entries msg_list = [].
Proof.
  induction msg_list as [|h|h a rest IH] using list_pair_ind; intros H.
  - reflexivity.
  - inversion H as [|? ? Hh _]; subst. cbn. rewrite Hh. reflexivity.
  - inversion H as [|? ? Hh H']; subst. inversion H' as [|? ? _ Hr]; subst.
    cbn [transcript_entries]. rewrite Hh. apply IH, Hr.
Qed.

Lemma map_fst_entries (tr : list History.Message) :
  map fst (map entry_of tr) = map History.content tr.
Proof. induction tr as [|m tr IH]; cbn; [reflexivity|]. rewrite IH. reflexivity. Qed.

(** The entries of the history of a stored checkpoint. *)
Lemma stored_history_entries w thread_id msgs language metadata new_versions
    last_updated :
  stored_checkpoint w thread_id msgs language metadata new_versions last_updated ->
  exists response w',
    get_chat_history w thread_id = Ok (response, w') /\
    map entry_of (History.messages response) = transcript_entries msgs /\
    History.thread_id response = thread_id /\
    History.language response = "English" /\
    only_clock_read w w' /\
    stamped_between w (ticks w) (ticks w') (History.messages response).
Proof.
  intros Hs. eexists _, _. split; [exact (stored_history _ _ _ _ _ _ _ Hs)|].
  cbn [History.messages History.thread_id History.language].
  rewrite spec_entries, read_back_entries.
  destruct (spec_reads (map read_back msgs) w) as [H1 H2]. auto.
Qed.


End HistoryMore.

Section FlatRecords.

Lemma get_flat_record w thread_id msgs metadata :
  s3_fault w (_get_s3_key thread_id) = None ->
  objects w !! _get_s3_key thread_id = Some (flat_record msgs metadata) ->
  Forall (fun m => is_human_or_ai m = true) msgs ->
  untagged (VDict metadata) = true ->
  get w thread_id =
    Ok (VDict [("messages", VList (map read_back msgs)); ("metadata", VDict metadata)]).
Proof.
  intros Hf Ho Hm Hu. unfold get, get_object. rewrite Hf, Ho.
  unfold flat_record.
  cbn [dict_get String.eqb Ascii.eqb Bool.eqb _deserialize_messages mapM snd fst
       json_dumps].
  rewrite (deserialize_message_list msgs Hm).
  cbn [fmap result_fmap mbind result_bind].
  pose proof (deserialize_untagged (VDict metadata) Hu) as Hd.
  cbn [_deserialize_messages] in Hd. rewrite Hd. reflexivity.
Qed.

Lemma flat_history w thread_id msgs metadata language :
  s3_fault w (_get_s3_key thread_id) = None ->
  objects w !! _get_s3_key thread_id = Some (flat_record msgs metadata) ->
  Forall (fun m => is_human_or_ai m = true) msgs ->
  untagged (VDict metadata) = true ->
  dict_get metadata "language" = Some (VStr language) ->
  get_chat_history w thread_id =
    Ok ({| History.thread_id := thread_id;
           History.messages := (paired_transcript_spec (map read_back msgs) w).1;
           History.language := language |},
        (paired_transcript_spec (map read_back msgs) w).2).
Proof.
  intros Hf Ho Hm Hu Hl. unfold get_chat_history.
  rewrite (get_flat_record w thread_id msgs metadata Hf Ho Hm Hu).
  cbn [mbind result_bind truthy negb orb dict_get String.eqb Ascii.eqb Bool.eqb
       is_Some_b dict_getitem].
  rewrite (reconstruct_messages _ w (read_back_messages msgs Hm)).
  cbn [mbind result_bind].
  destruct (paired_transcript_spec (map read_back msgs) w) as [tr w'].
  unfold checkpoint_language.
  cbn [dict_get String.eqb Ascii.eqb Bool.eqb default from_option id]. rewrite Hl.
  reflexivity.
Qed.

End FlatRecords.

(** X13. A record stored flat, with "messages" and "metadata" side by side
    and no "state" wrapper, is read whole, and the history of its thread
    carries the language of its metadata. *)
Theorem flat_record_language (w : world) (thread_id : string) (msgs : list value)
    (metadata : dict) (language : string) :
  s3_fault w (_get_s3_key thread_id) = None ->
  objects w !! _get_s3_key thread_id = Some (flat_record msgs metadata) ->
  Forall (fun m => is_human_or_ai m = true) msgs ->
  untagged (VDict metadata) = true ->
  dict_get metadata "language" = Some (VStr language) ->
  exists response w',
    get_chat_history w thread_id = Ok (response, w') /\
    History.language response = language /\
    map entry_of (History.messages response) = transcript_entries msgs.
Proof.
  intros Hf Ho Hm Hu Hl. eexists _, _.
  split; [exact (flat_history _ _ _ _ _ Hf Ho Hm Hu Hl)|].
  cbn [History.language History.messages]. split; [reflexivity|].
  rewrite spec_entries. apply read_back_entries.
Qed.

Lemma flat_record_language_witness :
  exists response w',
    get_chat_history flat_world "old" = Ok (response, w') /\
    History.language response = "Spanish" /\
    map entry_of (History.messages response) = transcript_entries spanish_thread.
Proof.
  apply (flat_record_language flat_world "old" spanish_thread
           [("language", VStr "Spanish")] "Spanish"); try reflexivity.
  repeat constructor.
Defined.

(** X14. Reading a history writes nothing: whenever [get_chat_history]
    returns, the bucket and the backend are as before, only the clock has
    been read, and the response names the thread asked for. *)
Theorem history_read_only (w w' : world) (thread_id : string)
    (response : ChatHistoryResponse) :
  get_chat_history w thread_id = Ok (response, w') ->
  objects w' = objects w /\ s3_fault w' = s3_fault w /\ clock w' = clock w /\
  ticks w <= ticks w' /\ History.thread_id response = thread_id.
Proof.
  intros H. destruct (get_chat_history_reads _ _ _ _ H) as [(A & B & C & D) E]. auto.
Qed.

Lemma history_read_only_witness :
  exists response w',
    get_chat_history saved_world "t1" = Ok (response, w') /\
    objects w' = objects saved_world /\ s3_fault w' = s3_fault saved_world /\
    clock w' = clock saved_world /\ ticks saved_world <= ticks w' /\
    History.thread_id response = "t1".
Proof.
  eexists _, _. split; [reflexivity|].
  eapply (history_read_only saved_world _ "t1"). reflexivity.
Defined.

(** X15. The transcript shows stored messages only, in their stored order:
    the contents of the history of a stored checkpoint form a subsequence
    of the contents of its messages, so the transcript is never longer
    than the stored list. *)
Theorem transcript_within_stored w thread_id msgs language metadata new_versions
    last_updated :
  stored_checkpoint w thread_id msgs language metadata new_versions last_updated ->
  exists response w',
    get_chat_history w thread_id = Ok (response, w') /\
    sublist (map History.content (History.messages response))
            (map message_content msgs) /\
    length (History.messages response) <= length msgs.
Proof.
  intros Hs.
  destruct (stored_history_entries _ _ _ _ _ _ _ Hs) as (r & w' & E & He & _).
  exists r, w'. split; [exact E|].
  assert (Hsub : sublist (map History.content (History.messages r))
                         (map message_content msgs)).
  { rewrite <- map_fst_entries, He. apply entries_sublist. }
  split; [exact Hsub|].
  apply sublist_length in Hsub. rewrite !length_map in Hsub. exact Hsub.
Qed.

Lemma transcript_within_stored_witness :
  exists response w',
    get_chat_history saved_world "t1" = Ok (response, w') /\
    sublist (map History.content (History.messages response))
            (map message_content spanish_thread) /\
    length (History.messages response) <= length spanish_thread.
Proof.
  exact (transcript_within_stored saved_world "t1" spanish_thread "Spanish"
           _ _ _ saved_world_stored).
Defined.

(** X16. When every stride of the stored list begins with a human message,
    the transcript shows every stored message: the contents of the history
    are the contents of the stored messages, one for one and in order. *)
Theorem transcript_complete w thread_id msgs language metadata new_versions
    last_updated :
  stored_checkpoint w thread_id msgs language metadata new_versions last_updated ->
  strides_start_human msgs = true ->
  exists response w',
    get_chat_history w thread_id = Ok (response, w') /\
    map History.content (History.messages response) = map message_content msgs.
Proof.
  intros Hs Hh.
  destruct (stored_history_entries _ _ _ _ _ _ _ Hs) as (r & w' & E & He & _).
  exists r, w'. split; [exact E|].
  rewrite <- map_fst_entries, He. apply entries_complete, Hh.
Qed.

Lemma transcript_complete_witness :
  exists response w',
    get_chat_history saved_world "t1" = Ok (response, w') /\
    map History.content (History.messages response)
      = map message_content spanish_thread.
Proof.
  apply (transcript_complete saved_world "t1" spanish_thread "Spanish"
           _ _ _ saved_world_stored).
  reflexivity.
Defined.



(** X18. A stored conversation without a human message is not shown: the
    transcript is empty and the route answers 404, although the record
    exists. *)
Theorem no_human_message_not_found w thread_id msgs language metadata new_versions
    last_updated :
  stored_checkpoint w thread_id msgs language metadata new_versions last_updated ->
  Forall (fun m => isinstance_HumanMessage m = false) msgs ->
  main.get_chat_history w thread_id = main.HttpError 404.
Proof.
  intros Hs Hn.
  destruct (stored_history_entries _ _ _ _ _ _ _ Hs) as (r & w' & E & He & _).
  rewrite (entries_no_human msgs Hn) in He.
  unfold main.get_chat_history. rewrite E.
  destruct (History.messages r); [reflexivity|discriminate].
Qed.

Lemma no_human_message_not_found_witness :
  main.get_chat_history assistant_only_world "t3" = main.HttpError 404.
Proof.
  apply (no_human_message_not_found assistant_only_world "t3" [AIMessage "hello" []]
           "English" (VDict []) (VDict []) (sample_clock 0)).
  - split; [reflexivity|]. split; [reflexivity|repeat constructor].
  - repeat constructor.
Defined.

(** X19. A stored conversation that begins with a human message is shown:
    the route answers 200 with the thread asked for, and the transcript
    begins with that message, in the role "human". *)
Theorem first_human_message_shown w thread_id content kw rest language metadata
    new_versions last_updated :
  stored_checkpoint w thread_id (VMsg Human content kw :: rest) language metadata
    new_versions last_updated ->
  exists body first others,
    main.get_chat_history w thread_id = main.Http200 body /\
    History.thread_id body = thread_id /\
    History.messages body = first :: others /\
    History.content first = content /\ History.role first = "human".
Proof.
  intros Hs.
  destruct (stored_history_entries _ _ _ _ _ _ _ Hs) as (r & w' & E & He & Ht & _).
  assert (Hhead : exists tl, transcript_entries (VMsg Human content kw :: rest)
                             = (content, "human") :: tl).
  { destruct rest as [|a rest]; cbn; eauto. }
  destruct Hhead as [tl Htl]. rewrite Htl in He.
  destruct (History.messages r) as [|first others] eqn:Em; [discriminate|].
  cbn [map] in He. unfold entry_of in He at 1. injection He as Hc Hr _.
  exists r, first, others. unfold main.get_chat_history. rewrite E, Em. auto.
Qed.

Lemma first_human_message_shown_witness :
  exists body first others,
    main.get_chat_history saved_world "t1" = main.Http200 body /\
    History.thread_id body = "t1" /\
    History.messages body = first :: others /\
    History.content first = "hola" /\ History.role first = "human".
Proof.
  exact (first_human_message_shown saved_world "t1" "hola" [] [AIMessage refusal []]
           "Spanish" _ _ _ saved_world_stored).
Defined.

(** ** The session cache and the orchestrator *)

Section CacheFacts.

Lemma get_or_create_hit (histories : cache) w session_id history :
  histories !! session_id = Some history ->
  get_or_create_chat_history histories w session_id = (history, histories).
Proof. intros H. unfold get_or_create_chat_history. rewrite H. reflexivity. Qed.

Lemma get_or_create_cached (histories : cache) w session_id :
  (get_or_create_chat_history histories w session_id).2 !! session_id
    = Some (get_or_create_chat_history histories w session_id).1.
Proof.
  unfold get_or_create_chat_history.
  destruct (histories !! session_id) eqn:E; cbn [fst snd]; [exact E|].
  apply lookup_insert_eq.
Qed.

Lemma get_or_create_others (histories : cache) w session_id other :
  other <> session_id ->
  (get_or_create_chat_history histories w session_id).2 !! other = histories !! other.
Proof.
  intros Hne. unfold get_or_create_chat_history.
  destruct (histories !! session_id); cbn [snd]; [reflexivity|].
  apply lookup_insert_ne. congruence.
Qed.

Lemma get_or_create_error (histories : cache) w session_id e :
  histories !! session_id = None ->
  get w session_id = Raise e ->
  get_or_create_chat_history histories w session_id
    = (VList [], <[session_id := VList []]> histories).
Proof.
  intros Hh Hg. unfold get_or_create_chat_history. rewrite Hh, Hg. reflexivity.
Qed.

Lemma get_or_create_stored (histories : cache) w session_id msgs language metadata
    new_versions last_updated :
  histories !! session_id = None ->
  stored_checkpoint w session_id msgs language metadata new_versions last_updated ->
  get_or_create_chat_history histories w session_id
    = (VList (map read_back msgs), <[session_id := VList (map read_back msgs)]> histories).
Proof.
  intros Hh Hs. unfold get_or_create_chat_history.
  rewrite Hh, (get_stored _ _ _ _ _ _ _ Hs). reflexivity.
Qed.

End CacheFacts.

(** X20. The session cache answers from memory once it has an entry: the
    history a call returns is the entry of the session afterwards, the
    entries of the other sessions are untouched, and every later call for
    the session returns the same history and changes nothing, whatever has
    become of the store in between. *)
Theorem session_cache_law (histories : cache) (w : world) (session_id : string) :
  (get_or_create_chat_history histories w session_id).2 !! session_id
    = Some (get_or_create_chat_history histories w session_id).1 /\
  (forall other, other <> session_id ->
     (get_or_create_chat_history histories w session_id).2 !! other
       = histories !! other) /\
  (forall w',
     get_or_create_chat_history
       (get_or_create_chat_history histories w session_id).2 w' session_id
     = get_or_create_chat_history histories w session_id).
Proof.
  split; [apply get_or_create_cached|]. split.
  - intros other Hne. apply get_or_create_others, Hne.
  - intros w'. rewrite (get_or_create_hit _ w' session_id _
                          (get_or_create_cached histories w session_id)).
    destruct (get_or_create_chat_history histories w session_id). reflexivity.
Qed.

(** X21. On a miss, a store that fails is not an error for the session
    cache: whatever [get] raises, the session starts with an empty history,
    which is cached. *)
Theorem session_cache_swallows_errors (histories : cache) (w : world)
    (session_id : string) (e : exn) :
  histories !! session_id = None ->
  get w session_id = Raise e ->
  get_or_create_chat_history histories w session_id
    = (VList [], <[session_id := VList []]> histories).
Proof. apply get_or_create_error. Qed.

Lemma session_cache_swallows_errors_witness :
  get_or_create_chat_history ∅ denied_world "t1"
    = (VList [], <["t1" := VList []]> ∅).
Proof.
  apply (session_cache_swallows_errors ∅ denied_world "t1" (ClientError "AccessDenied"));
    reflexivity.
Defined.

(** X22. On a miss, the session cache loads the messages of the stored
    checkpoint, as the decoder reads them back, and caches them. *)
Theorem session_cache_loads_checkpoint (histories : cache) w session_id msgs
    language metadata new_versions last_updated :
  histories !! session_id = None ->
  stored_checkpoint w session_id msgs language metadata new_versions last_updated ->
  get_or_create_chat_history histories w session_id
    = (VList (map read_back msgs),
       <[session_id := VList (map read_back msgs)]> histories).
Proof. apply get_or_create_stored. Qed.

Lemma session_cache_loads_checkpoint_witness :
  get_or_create_chat_history ∅ saved_world "t1"
    = (VList (map read_back spanish_thread),
       <["t1" := VList (map read_back spanish_thread)]> ∅).
Proof.
  apply (session_cache_loads_checkpoint ∅ saved_world "t1" spanish_thread "Spanish"
           (VDict [("timestamp", VStr (sample_clock 0)); ("language", VStr "Spanish")])
           (VDict [("messages", VInt 2)]) (sample_clock 1)).
  - reflexivity.
  - exact saved_world_stored.
Defined.

Section OrchestratorFacts.

Variable hash : string -> Z.
Variable strftime : datetime -> string.
Variable ainvoke : value -> string -> result (option (list value)).

Variable st : service_state.
Variable request : ChatRequest.
Variable t : string.
Variable items : list value.
Variable histories : cache.

Hypothesis thread_given : Request.thread_id request = Some t.
Hypothesis thread_nonempty : nonempty t = true.
Hypothesis history_loaded :
  get_or_create_chat_history (chat_histories st) (env st) t = (VList items, histories).

(** The workflow is called on the history with the human message of the
    request appended, and the language of the request. *)
#[local] Abbreviation workflow_input :=
  (VDict [("messages", VList (items ++ [HumanMessage (Request.message request) []]));
          ("language", VStr (Request.language request))]).

Lemma process_chat_workflow_raises e :
  ainvoke workflow_input t = Raise e ->
  process_chat hash strftime ainvoke st request =
    (inl (Raised e),
     {| chat_histories :=
          <[t := VList (items ++ [HumanMessage (Request.message request) []])]> histories;
        env := env st |}).
Proof.
  intros Ha. unfold process_chat, resolve_session_id.
  rewrite thread_given, thread_nonempty, history_loaded. cbn [py_append].
  rewrite Ha. reflexivity.
Qed.

Lemma save_checkpoint_fault w out language code :
  s3_fault w (_get_s3_key t) = Some code ->
  _save_checkpoint w t out language = Raise (ClientError code).
Proof.
  intros Hf. unfold _save_checkpoint, put, datetime_now, put_object.
  cbn [s3_fault]. rewrite Hf. reflexivity.
Qed.

Lemma process_chat_save_raises out code :
  ainvoke workflow_input t = Ok (Some out) ->
  s3_fault (env st) (_get_s3_key t) = Some code ->
  process_chat hash strftime ainvoke st request =
    (inl (Raised (ClientError code)),
     {| chat_histories :=
          <[t := VList out]>
            (<[t := VList (items ++ [HumanMessage (Request.message request) []])]>
               histories);
        env := after_readings 2 (env st) |}).
Proof.
  intros Ha Hf. unfold process_chat, resolve_session_id.
  rewrite thread_given, thread_nonempty, history_loaded. cbn [py_append].
  rewrite Ha.
  rewrite (save_checkpoint_fault (env st) out _ code Hf). reflexivity.
Qed.

Lemma process_chat_succeeds out cls raw kw :
  ainvoke workflow_input t = Ok (Some out) ->
  s3_fault (env st) (_get_s3_key t) = None ->
  Forall (fun m => is_human_or_ai m = true) out ->
  last out = Some (VMsg cls raw kw) ->
  exists w' now,
    _save_checkpoint (env st) t out (Request.language request) = Ok w' /\
    stored_checkpoint w' t out (Request.language request)
      (VDict [("timestamp", VStr (clock (env st) (ticks (env st))));
              ("language", VStr (Request.language request))])
      (VDict [("messages", VInt (Z.of_nat (length out)))])
      (clock (env st) (S (ticks (env st)))) /\
    process_chat hash strftime ainvoke st request =
      (inr {| Response.response := _format_response raw;
              Response.language := Request.language request;
              Response.timestamp := now |},
       {| chat_histories :=
            <[t := VList out]>
              (<[t := VList (items ++ [HumanMessage (Request.message request) []])]>
                 histories);
          env := (datetime_now w').2 |}).
Proof.
  intros Ha Hf Hm Hl.
  destruct (save_checkpoint_stored (env st) t out (Request.language request) Hf Hm)
    as (w' & Hsave & Hstored).
  exists w', (clock w' (ticks w')). split; [exact Hsave|]. split; [exact Hstored|].
  unfold process_chat, resolve_session_id.
  rewrite thread_given, thread_nonempty, history_loaded. cbn [py_append].
  rewrite Ha, Hsave, Hl. reflexivity.
Qed.

End OrchestratorFacts.

(** X23. A turn that fails in the workflow is not undone: [process_chat]
    raises the error of the workflow, the store is untouched, and the
    cached history of the session ends with the human message of the
    request. *)
Theorem workflow_failure_keeps_message (hash : string -> Z)
    (strftime : datetime -> string)
    (ainvoke : value -> string -> result (option (list value)))
    (st : service_state) (request : ChatRequest) (t : string)
    (items : list value) (histories : cache) (e : exn) :
  Request.thread_id request = Some t ->
  nonempty t = true ->
  get_or_create_chat_history (chat_histories st) (env st) t = (VList items, histories) ->
  ainvoke
    (VDict [("messages", VList (items ++ [HumanMessage (Request.message request) []]));
            ("language", VStr (Request.language request))]) t = Raise e ->
  exists st',
    process_chat hash strftime ainvoke st request = (inl (Raised e), st') /\
    chat_histories st' !! t
      = Some (VList (items ++ [HumanMessage (Request.message request) []])) /\
    env st' = env st.
Proof.
  intros Ht Hne Hg Ha. eexists. split.
  - exact (process_chat_workflow_raises hash strftime ainvoke st request t items
             histories Ht Hne Hg e Ha).
  - cbn [chat_histories env]. split; [apply lookup_insert_eq|reflexivity].
Qed.

Lemma workflow_failure_keeps_message_witness :
  exists st',
    process_chat sample_hash sample_strftime failing_workflow
      (fresh_state quiet_world) hola_request = (inl (Raised TypeError), st') /\
    chat_histories st' !! "t1"
      = Some (VList ([] ++ [HumanMessage (Request.message hola_request) []])) /\
    env st' = env (fresh_state quiet_world).
Proof.
  apply (workflow_failure_keeps_message sample_hash sample_strftime failing_workflow
           (fresh_state quiet_world) hola_request "t1" []
           (<["t1" := VList []]> ∅) TypeError); reflexivity.
Defined.

(** X24. Failed turns pile up in the cache: when the workflow fails twice
    on the same request, the cached history of the session ends with two
    copies of the human message. *)
Theorem failed_turns_accumulate (hash : string -> Z) (strftime : datetime -> string)
    (ainvoke : value -> string -> result (option (list value)))
    (st : service_state) (request : ChatRequest) (t : string)
    (items : list value) (histories : cache) (e : exn) :
  Request.thread_id request = Some t ->
  nonempty t = true ->
  get_or_create_chat_history (chat_histories st) (env st) t = (VList items, histories) ->
  (forall input session_id, ainvoke input session_id = Raise e) ->
  chat_histories
    (process_chat hash strftime ainvoke
       (process_chat hash strftime ainvoke st request).2 request).2 !! t
  = Some (VList (items ++ [HumanMessage (Request.message request) [];
                           HumanMessage (Request.message request) []])).
Proof.
  intros Ht Hne Hg Ha.
  rewrite (process_chat_workflow_raises hash strftime ainvoke st request t items
             histories Ht Hne Hg e (Ha _ _)).
  cbn [snd].
  assert (Hhit :
    get_or_create_chat_history
      (<[t := VList (items ++ [HumanMessage (Request.message request) []])]> histories)
      (env st) t
    = (VList (items ++ [HumanMessage (Request.message request) []]),
       <[t := VList (items ++ [HumanMessage (Request.message request) []])]> histories))
    by apply get_or_create_hit, lookup_insert_eq.
  rewrite (process_chat_workflow_raises hash strftime ainvoke
             {| chat_histories :=
                  <[t := VList (items ++ [HumanMessage (Request.message request) []])]>
                    histories;
                env := env st |}
             request t _ _ Ht Hne Hhit e (Ha _ _)).
  cbn [snd chat_histories]. rewrite lookup_insert_eq, <- app_assoc. reflexivity.
Qed.

Lemma failed_turns_accumulate_witness :
  chat_histories
    (process_chat sample_hash sample_strftime failing_workflow
       (process_chat sample_hash sample_strftime failing_workflow
          (fresh_state quiet_world) hola_request).2 hola_request).2 !! "t1"
  = Some (VList ([] ++ [HumanMessage (Request.message hola_request) [];
                        HumanMessage (Request.message hola_request) []])).
Proof.
  apply (failed_turns_accumulate sample_hash sample_strftime failing_workflow
           (fresh_state quiet_world) hola_request "t1" []
           (<["t1" := VList []]> ∅) TypeError); reflexivity.
Defined.

(** X25. A turn that succeeds: the response is the formatted text of the
    last message of the workflow's output, in the language of the request;
    the cache holds the output for the session; and the store returns, for
    the session, a state with the output messages as read back and the
    language of the request. *)
Theorem successful_turn (hash : string -> Z) (strftime : datetime -> string)
    (ainvoke : value -> string -> result (option (list value)))
    (st : service_state) (request : ChatRequest) (t : string)
    (items : list value) (histories : cache)
    (out : list value) (cls : message_class) (raw : string) (kw : dict) :
  Request.thread_id request = Some t ->
  nonempty t = true ->
  get_or_create_chat_history (chat_histories st) (env st) t = (VList items, histories) ->
  ainvoke
    (VDict [("messages", VList (items ++ [HumanMessage (Request.message request) []]));
            ("language", VStr (Request.language request))]) t = Ok (Some out) ->
  s3_fault (env st) (_get_s3_key t) = None ->
  Forall (fun m => is_human_or_ai m = true) out ->
  last out = Some (VMsg cls raw kw) ->
  exists response st',
    process_chat hash strftime ainvoke st request = (inr response, st') /\
    Response.response response = _format_response raw /\
    Response.language response = Request.language request /\
    chat_histories st' !! t = Some (VList out) /\
    get (env st') t = Ok (session_state (map read_back out) (Request.language request)).
Proof.
  intros Ht Hne Hg Ha Hf Hm Hl.
  destruct (process_chat_succeeds hash strftime ainvoke st request t items histories
              Ht Hne Hg out cls raw kw Ha Hf Hm Hl) as (w' & now & _ & Hs & E).
  eexists _, _. split; [exact E|].
  cbn [Response.response Response.language chat_histories env].
  split; [reflexivity|]. split; [reflexivity|]. split; [apply lookup_insert_eq|].
  rewrite <- (get_stored _ _ _ _ _ _ _ Hs).
  apply get_depends_on_key; reflexivity.
Qed.

Lemma successful_turn_witness :
  exists response st',
    process_chat sample_hash sample_strftime echo_workflow
      (fresh_state quiet_world) hola_request = (inr response, st') /\
    Response.response response = _format_response refusal /\
    Response.language response = Request.language hola_request /\
    chat_histories st' !! "t1" = Some (VList spanish_thread) /\
    get (env st') "t1"
      = Ok (session_state (map read_back spanish_thread) (Request.language hola_request)).
Proof.
  apply (successful_turn sample_hash sample_strftime echo_workflow
           (fresh_state quiet_world) hola_request "t1" []
           (<["t1" := VList []]> ∅) spanish_thread AI refusal []);
    try reflexivity.
  repeat constructor.
Defined.

(** X26. A turn that fails in the store: [process_chat] raises the error of
    the backend and the route answers 500, the bucket is as before, and
    yet the cache holds the workflow's output for the session -- cache and
    store have parted. *)
Theorem persistence_failure_diverges (hash : string -> Z)
    (strftime : datetime -> string)
    (ainvoke : value -> string -> result (option (list value)))
    (st : service_state) (request : ChatRequest) (t : string)
    (items : list value) (histories : cache) (out : list value) (code : string) :
  Request.thread_id request = Some t ->
  nonempty t = true ->
  get_or_create_chat_history (chat_histories st) (env st) t = (VList items, histories) ->
  ainvoke
    (VDict [("messages", VList (items ++ [HumanMessage (Request.message request) []]));
            ("language", VStr (Request.language request))]) t = Ok (Some out) ->
  s3_fault (env st) (_get_s3_key t) = Some code ->
  exists st',
    process_chat hash strftime ainvoke st request
      = (inl (Raised (ClientError code)), st') /\
    chat hash strftime ainvoke st request = (ChatError 500, st') /\
    chat_histories st' !! t = Some (VList out) /\
    objects (env st') = objects (env st).
Proof.
  intros Ht Hne Hg Ha Hf.
  pose proof (process_chat_save_raises hash strftime ainvoke st request t items
                histories Ht Hne Hg out code Ha Hf) as E.
  eexists. split; [exact E|]. unfold chat. rewrite E.
  split; [reflexivity|]. cbn [chat_histories env].
  split; [apply lookup_insert_eq|reflexivity].
Qed.

Lemma persistence_failure_diverges_witness :
  exists st',
    process_chat sample_hash sample_strftime echo_workflow
      (fresh_state denied_world) hola_request
      = (inl (Raised (ClientError "AccessDenied")), st') /\
    chat sample_hash sample_strftime echo_workflow (fresh_state denied_world)
      hola_request = (ChatError 500, st') /\
    chat_histories st' !! "t1" = Some (VList spanish_thread) /\
    objects (env st') = objects (env (fresh_state denied_world)).
Proof.
  apply (persistence_failure_diverges sample_hash sample_strftime echo_workflow
           (fresh_state denied_world) hola_request "t1" []
           (<["t1" := VList []]> ∅) spanish_thread "AccessDenied"); reflexivity.
Defined.

(** ** Session ids *)

Section SessionIdFacts.

#[local] Arguments String.append !_ _ / : simpl nomatch.

Lemma hex_digit_hex (d : N) :
  contains (String (hex_digit d) "") "0123456789abcdef" = true.
Proof.
  unfold hex_digit. generalize (N.to_nat d). intros n.
  do 16 (destruct n as [|n]; [reflexivity|]). reflexivity.
Qed.

Lemma all_hex_digits (fuel : nat) :
  forall n acc, all_hex acc = true -> all_hex (hex_digits fuel n acc) = true.
Proof.
  induction fuel as [|fuel IH]; intros n acc Hacc; cbn [hex_digits]; [exact Hacc|].
  destruct (n <? 16)%N.
  - cbn [all_hex]. rewrite hex_digit_hex, Hacc. reflexivity.
  - apply IH. cbn [all_hex]. rewrite hex_digit_hex, Hacc. reflexivity.
Qed.

Lemma all_hex_zeros (k : nat) (s : string) :
  all_hex s = true -> all_hex (zeros k +:+ s) = true.
Proof. intros H. induction k as [|k IH]; [exact H|]. cbn -[contains]. rewrite IH. reflexivity. Qed.

Lemma length_zeros (k : nat) : String.length (zeros k) = k.
Proof. induction k as [|k IH]; cbn; [reflexivity|]. rewrite IH. reflexivity. Qed.

(** A number below [16 ^ k] has at most [k] hexadecimal digits. *)
Lemma length_hex_digits (fuel : nat) :
  forall n acc k,
    (n < 16 ^ N.of_nat k)%N -> 1 <= k ->
    String.length (hex_digits fuel n acc) <= k + String.length acc.
Proof.
  induction fuel as [|fuel IH]; intros n acc k Hn Hk; cbn [hex_digits]; [lia|].
  destruct (n <? 16)%N eqn:E.
  - cbn. lia.
  - apply N.ltb_ge in E.
    destruct k as [|k]; [lia|]. destruct k as [|k].
    + cbn in Hn. lia.
    + assert (Hdiv : (n / 16 < 16 ^ N.of_nat (S k))%N).
      { apply N.Div0.div_lt_upper_bound.
        rewrite <- N.pow_succ_r', <- Nat2N.inj_succ. exact Hn. }
      specialize (IH (n / 16)%N (String (hex_digit (n mod 16)%N) acc) (S k) Hdiv
                     ltac:(lia)).
      cbn [String.length] in IH. lia.
Qed.

Lemma length_format_08x (n : N) :
  (n < 2 ^ 32)%N -> String.length (format_08x n) = 8.
Proof.
  intros Hn. unfold format_08x.
  rewrite length_append, length_zeros.
  pose proof (length_hex_digits (S (N.to_nat (N.log2 n))) n "" 8 Hn ltac:(lia)) as H.
  cbn [String.length] in H. fold (format_x n) in H. lia.
Qed.

Lemma hash_part_bound (hash : string -> Z) (message : string) :
  (Z.to_N (hash message mod 2 ^ 32) < 2 ^ 32)%N.
Proof.
  pose proof (Z.mod_pos_bound (hash message) (2 ^ 32) ltac:(lia)) as H.
  change (2 ^ 32)%N with (Z.to_N (2 ^ 32)). lia.
Qed.

Lemma hash_part_length hash message : String.length (hash_part hash message) = 8.
Proof. apply length_format_08x, hash_part_bound. Qed.

Lemma hash_part_hex hash message : all_hex (hash_part hash message) = true.
Proof.
  unfold hash_part, format_08x, format_x. apply all_hex_zeros, all_hex_digits.
  reflexivity.
Qed.

(** Cutting at a one-character separator. *)
Lemma split_dash_cut s : split "-" (String "-" s) = "" :: split "-" s.
Proof.
  unfold split. cbn [split_from String.prefix String.length Nat.sub].
  destruct (ascii_dec "-" "-"); [|congruence].
  rewrite prefix_empty. reflexivity.
Qed.

Lemma split_dash_keep a s :
  a <> "-"%char -> split "-" (String a s) = push_char a (split "-" s).
Proof.
  intros Ha. unfold split. cbn [split_from String.prefix].
  destruct (ascii_dec "-" a); [congruence|reflexivity].
Qed.

Lemma contains_dash_cons a s :
  contains "-" (String a s) = false -> a <> "-"%char /\ contains "-" s = false.
Proof.
  cbn [contains String.prefix]. intros H. apply orb_false_elim in H as [H1 H2].
  split; [|exact H2]. intros ->.
  destruct (ascii_dec "-" "-"); [|congruence]. rewrite prefix_empty in H1. discriminate.
Qed.

Lemma split_dash_free s : contains "-" s = false -> split "-" s = [s].
Proof.
  induction s as [|a s IH]; [reflexivity|]. intros H.
  apply contains_dash_cons in H as [Ha Hs].
  rewrite (split_dash_keep a s Ha), (IH Hs). reflexivity.
Qed.

Lemma split_dash_app a b :
  contains "-" a = false -> split "-" (a +:+ String "-" b) = a :: split "-" b.
Proof.
  induction a as [|c a IH]; intros H.
  - apply split_dash_cut.
  - apply contains_dash_cons in H as [Hc Ha].
    cbn [String.append]. rewrite (split_dash_keep c _ Hc), (IH Ha). reflexivity.
Qed.

Lemma all_hex_no_dash s : all_hex s = true -> contains "-" s = false.
Proof.
  induction s as [|c s IH]; [reflexivity|]. cbn [all_hex]. intros H.
  apply andb_prop in H as [Hc Hs]. cbn [contains String.prefix].
  rewrite (IH Hs), orb_false_r.
  destruct (ascii_dec "-" c) as [<-|]; [discriminate Hc|reflexivity].
Qed.

End SessionIdFacts.

(** X27. A generated session id is the formatted time of its making, a
    dash, and exactly eight lower-case hexadecimal digits, whatever the
    hash of the message, negative ones included. *)
Theorem generated_session_id_format (hash : string -> Z)
    (strftime : datetime -> string) (w : world) (message : string) :
  (_generate_session_id hash strftime w message).1
    = strftime (clock w (ticks w)) +:+ "-" +:+ hash_part hash message /\
  String.length (hash_part hash message) = 8 /\
  all_hex (hash_part hash message) = true.
Proof.
  split; [reflexivity|]. split; [apply hash_part_length|apply hash_part_hex].
Qed.

(** X28. When the formatted time holds no dash, cutting a generated session
    id at its dashes gives exactly two parts, the time and the hash part. *)
Theorem generated_session_id_split (hash : string -> Z)
    (strftime : datetime -> string) (w : world) (message : string) :
  contains "-" (strftime (clock w (ticks w))) = false ->
  split "-" (_generate_session_id hash strftime w message).1
    = [strftime (clock w (ticks w)); hash_part hash message].
Proof.
  intros H. unfold _generate_session_id. cbn [datetime_now fst].
  change (strftime (clock w (ticks w)) +:+ "-" +:+ hash_part hash message)
    with (strftime (clock w (ticks w)) +:+ String "-" (hash_part hash message)).
  rewrite (split_dash_app _ _ H).
  rewrite (split_dash_free _ (all_hex_no_dash _ (hash_part_hex hash message))).
  reflexivity.
Qed.

Lemma generated_session_id_split_witness :
  split "-" (_generate_session_id sample_hash sample_strftime quiet_world "hola").1
    = [sample_strftime (clock quiet_world (ticks quiet_world));
       hash_part sample_hash "hola"].
Proof.
  apply (generated_session_id_split sample_hash sample_strftime quiet_world "hola").
  reflexivity.
Defined.

(** ** Expiry of old sessions *)

Section CleanupFacts.

Variable days_between : datetime -> datetime -> Z.
Variable current_time : datetime.
Variable max_age_days : Z.

#[local] Abbreviation expired obj :=
  (expired days_between current_time max_age_days obj).

Lemma only_removed_refl (due : string -> Prop) w : only_removed due w w.
Proof. split; [reflexivity|]. intros key. left. reflexivity. Qed.

Lemma only_removed_trans (due1 due2 due : string -> Prop) w1 w2 w3 :
  (forall key, due1 key -> due key) -> (forall key, due2 key -> due key) ->
  only_removed due1 w1 w2 -> only_removed due2 w2 w3 -> only_removed due w1 w3.
Proof.
  intros H1 H2 [F1 O1] [F2 O2]. split; [congruence|]. intros key.
  destruct (O2 key) as [E2|[E2 D2]].
  - rewrite E2. destruct (O1 key) as [E1|[E1 D1]]; [left; exact E1|right; auto].
  - right. auto.
Qed.

Lemma delete_object_removes w key w' :
  delete_object w key = Ok w' ->
  objects w' !! key = None /\
  only_removed (fun k => k = key) w w'.
Proof.
  unfold delete_object. destruct (s3_fault w key); [discriminate|].
  intros [= <-]. cbn [objects s3_fault]. split; [apply lookup_delete_eq|].
  split; [reflexivity|]. intros k. cbn [objects].
  destruct (decide (k = key)) as [->|Hne].
  - right. split; [apply lookup_delete_eq|reflexivity].
  - left. apply lookup_delete_ne. congruence.
Qed.

Lemma cleanup_contents_removes (contents : list listed_object) :
  forall w r w',
    cleanup_contents days_between current_time max_age_days contents w = (r, w') ->
    only_removed
      (fun key => exists obj, obj ∈ contents /\ Key obj = key /\ expired obj) w w'.
Proof.
  induction contents as [|obj contents IH]; intros w r w'; cbn [cleanup_contents].
  - intros [= _ <-]. apply only_removed_refl.
  - assert (Hskip :
      cleanup_contents days_between current_time max_age_days contents w = (r, w') ->
      only_removed
        (fun key => exists o, o ∈ obj :: contents /\ Key o = key /\ expired o) w w').
    { intros H. apply IH in H. destruct H as [F O]. split; [exact F|].
      intros key. destruct (O key) as [E|[E (o & Ho & D)]]; [left; exact E|].
      right. split; [exact E|]. exists o. split; [now constructor|exact D]. }
    destruct (endswith (Key obj) ".json") eqn:Ee; cbn [negb]; [|exact Hskip].
    destruct (max_age_days <? days_between current_time (LastModified obj))%Z eqn:Ea;
      [|exact Hskip].
    apply Z.ltb_lt in Ea.
    destruct (delete_object w (Key obj)) as [w1|e] eqn:Ed.
    + intros H. apply IH in H. apply delete_object_removes in Ed as [_ Hd].
      eapply only_removed_trans; [| |exact Hd|exact H].
      * intros key ->. exists obj. split; [constructor|].
        split; [reflexivity|]. split; [exact Ee|exact Ea].
      * intros key (o & Ho & D). exists o. split; [now constructor|exact D].
    + intros [= _ <-]. apply only_removed_refl.
Qed.

Lemma cleanup_contents_complete (contents : list listed_object) :
  forall w w',
    cleanup_contents days_between current_time max_age_days contents w = (Ok tt, w') ->
    forall obj, obj ∈ contents -> expired obj -> objects w' !! Key obj = None.
Proof.
  induction contents as [|o contents IH]; intros w w' H obj Hin [He Ha].
  - inversion Hin.
  - cbn [cleanup_contents] in H.
    apply elem_of_cons in Hin as [->|Hin].
    + rewrite He in H. cbn [negb] in H.
      apply Z.ltb_lt in Ha. rewrite Ha in H.
      destruct (delete_object w (Key o)) as [w1|e] eqn:Ed; [|discriminate].
      apply delete_object_removes in Ed as [Hnone _].
      apply cleanup_contents_removes in H as [_ O].
      destruct (O (Key o)) as [E|[E _]]; [rewrite E; exact Hnone|exact E].
    + destruct (negb (endswith (Key o) ".json")); [exact (IH _ _ H obj Hin (conj He Ha))|].
      destruct (max_age_days <? days_between current_time (LastModified o))%Z;
        [|exact (IH _ _ H obj Hin (conj He Ha))].
      destruct (delete_object w (Key o)) as [w1|e]; [|discriminate].
      exact (IH _ _ H obj Hin (conj He Ha)).
Qed.

Lemma cleanup_pages_removes (pages : list (option (list listed_object))) :
  forall w r w',
    cleanup_pages days_between current_time max_age_days pages w = (r, w') ->
    only_removed
      (fun key => exists obj, listed pages obj /\ Key obj = key /\ expired obj) w w'.
Proof.
  induction pages as [|[contents|] pages IH]; intros w r w'; cbn [cleanup_pages].
  - intros [= _ <-]. apply only_removed_refl.
  - destruct (cleanup_contents _ _ _ contents w) as [[[]|e] w1] eqn:Ec.
    + intros H. apply IH in H. apply cleanup_contents_removes in Ec.
      eapply only_removed_trans; [| |exact Ec|exact H].
      * intros key (o & Ho & D). exists o. split; [|exact D].
        exists contents. split; [constructor|exact Ho].
      * intros key (o & (c & Hc & Ho) & D). exists o. split; [|exact D].
        exists c. split; [now constructor|exact Ho].
    + intros [= _ <-]. apply cleanup_contents_removes in Ec.
      eapply only_removed_trans; [| |exact Ec|apply (only_removed_refl (fun _ => False))].
      * intros key (o & Ho & D). exists o. split; [|exact D].
        exists contents. split; [constructor|exact Ho].
      * intros key [].
  - intros H. apply IH in H. destruct H as [F O]. split; [exact F|].
    intros key. destruct (O key) as [E|[E (o & (c & Hc & Ho) & D)]]; [left; exact E|].
    right. split; [exact E|]. exists o. split; [|exact D].
    exists c. split; [now constructor|exact Ho].
Qed.

Lemma cleanup_pages_complete (pages : list (option (list listed_object))) :
  forall w w',
    cleanup_pages days_between current_time max_age_days pages w = (Ok tt, w') ->
    forall obj, listed pages obj -> expired obj -> objects w' !! Key obj = None.
Proof.
  induction pages as [|[contents|] pages IH]; intros w w' H obj (c & Hc & Ho) Hexp.
  - inversion Hc.
  - cbn [cleanup_pages] in H.
    destruct (cleanup_contents _ _ _ contents w) as [[[]|e] w1] eqn:Ec; [|discriminate].
    apply elem_of_cons in Hc as [[= ->]|Hc].
    + pose proof (cleanup_contents_complete _ _ _ Ec obj Ho Hexp) as Hnone.
      apply cleanup_pages_removes in H as [_ O].
      destruct (O (Key obj)) as [E|[E _]]; [rewrite E; exact Hnone|exact E].
    + apply (IH _ _ H). exists c. auto. exact Hexp.
  - cbn [cleanup_pages] in H.
    apply elem_of_cons in Hc as [Hc|Hc]; [discriminate|].
    apply (IH _ _ H). exists c. auto. exact Hexp.
Qed.

End CleanupFacts.

(** X29. The clean-up only deletes, and only what is due: whatever its
    outcome, also when a deletion has failed half way, every object of
    the bucket is either as before or gone, and an object is gone only if
    the pages list it under a key ending in ".json" with an age above the
    limit. *)
Theorem cleanup_only_removes_expired (days_between : datetime -> datetime -> Z)
    (w w' : world) (pages : list (option (list listed_object)))
    (max_age_days : Z) (r : result unit) :
  cleanup_old_sessions days_between w pages max_age_days = (r, w') ->
  s3_fault w' = s3_fault w /\
  forall key,
    objects w' !! key = objects w !! key \/
    (objects w' !! key = None /\
     exists obj, listed pages obj /\ Key obj = key /\
       endswith key ".json" = true /\
       (max_age_days < days_between (clock w (ticks w)) (LastModified obj))%Z).
Proof.
  unfold cleanup_old_sessions. cbn [datetime_now]. intros H.
  apply cleanup_pages_removes in H as [F O]. cbn [s3_fault objects] in *.
  split; [exact F|]. intros key.
  destruct (O key) as [E|[E (o & Hl & <- & He & Ha)]]; [left; exact E|].
  right. split; [exact E|]. exists o. auto.
Qed.

Lemma cleanup_only_removes_expired_witness :
  exists r w',
    cleanup_old_sessions sample_days saved_world sample_pages 30 = (r, w') /\
    s3_fault w' = s3_fault saved_world /\
    forall key,
      objects w' !! key = objects saved_world !! key \/
      (objects w' !! key = None /\
       exists obj, listed sample_pages obj /\ Key obj = key /\
         endswith key ".json" = true /\
         (30 < sample_days (clock saved_world (ticks saved_world))
                 (LastModified obj))%Z).
Proof.
  eexists _, _. split; [reflexivity|].
  eapply (cleanup_only_removes_expired sample_days saved_world _ sample_pages 30).
  reflexivity.
Defined.

(** X30. A clean-up that ends without error has deleted every object the
    pages list under a key ending in ".json" with an age above the
    limit. *)
Theorem cleanup_removes_all_expired (days_between : datetime -> datetime -> Z)
    (w w' : world) (pages : list (option (list listed_object)))
    (max_age_days : Z) :
  cleanup_old_sessions days_between w pages max_age_days = (Ok tt, w') ->
  forall obj, listed pages obj ->
    endswith (Key obj) ".json" = true ->
    (max_age_days < days_between (clock w (ticks w)) (LastModified obj))%Z ->
    objects w' !! Key obj = None.
Proof.
  unfold cleanup_old_sessions. cbn [datetime_now]. intros H obj Hl He Ha.
  exact (cleanup_pages_complete _ _ _ _ _ _ H obj Hl (conj He Ha)).
Qed.

Lemma cleanup_removes_all_expired_witness :
  exists w',
    cleanup_old_sessions sample_days saved_world sample_pages 30 = (Ok tt, w') /\
    get w' "t1" = Ok VNone /\
    forall obj, listed sample_pages obj ->
      endswith (Key obj) ".json" = true ->
      (30 < sample_days (clock saved_world (ticks saved_world)) (LastModified obj))%Z ->
      objects w' !! Key obj = None.
Proof.
  eexists. split; [reflexivity|]. split; [reflexivity|].
  eapply (cleanup_removes_all_expired sample_days saved_world _ sample_pages 30).
  reflexivity.
Defined.
